(** * Sorting-cell digital twin: event bus, twin state machine and facade

    A shallow embedding of [common/events.py], [twin_core/state_model.py],
    [twin_core/event_bus.py], [twin_core/twin.py] and the wiring in
    [main.py].

    Modelling choices:
    - Python floats (timestamps, [blocked_threshold], metrics) are rationals
      [Q]; the comparisons of the source ([==], [>], [<=]) are the boolean
      comparisons of [QArith]. Only finite values are covered: [inf] and
      [nan] (e.g. [inf - inf]) have no counterpart.
    - Python ints (the counters) are [nat]: they start at 0 and are only
      incremented.
    - An event payload [data : Dict[str, Any]] is a [gmap string string];
      [data.get("part_id")] is a lookup returning [option string], and the
      parts dictionary is keyed by that option ([None] is a legal dict key
      in Python). Payloads with values of other types ([Dict[str, Any]]
      allows e.g. a list as [part_id], which is unhashable and raises
      [TypeError] in [_get_or_create_part]) are outside the model.
    - [data["outcome"]] raises [KeyError] when the key is absent; the
      exception escapes [handle_event] and the dispatch loop, so the
      handler returns [option TwinState] and [None] is the raised
      exception (no further state is reachable through the handler).
    - Logging calls have no effect on the state and are dropped. *)

From Stdlib Require Import QArith.
From stdpp Require Import base gmap strings list pretty.

(** ** common/events.py *)

Inductive EventType :=
  | PART_ARRIVED
  | SENSOR_READ
  | ACTUATOR_TRIGGERED
  | PART_SORTED.

#[global] Instance EventType_eq_dec : EqDecision EventType.
Proof. solve_decision. Defined.

Record Event := mkEvent {
  type : EventType;
  timestamp : Q;
  data : gmap string string
}.

(** ** twin_core/state_model.py *)

Inductive CellState := IDLE | RUNNING | BLOCKED | ERROR.

#[global] Instance CellState_eq_dec : EqDecision CellState.
Proof. solve_decision. Defined.

Inductive PartStatus :=
  | CREATED
  | ON_CONVEYOR
  | AT_SENSOR
  | READY_TO_SORT
  | SORTED_OK
  | SORTED_NOK.

#[global] Instance PartStatus_eq_dec : EqDecision PartStatus.
Proof. solve_decision. Defined.

Record Part := mkPart {
  part_id : option string;
  status : PartStatus;
  last_timestamp : Q
}.

Record TwinState := mkTwinState {
  cell_state : CellState;
  parts : gmap (option string) Part;
  total_processed : nat;
  total_rejected : nat;
  last_event_time : Q;
  system_start_time : Q;
  blocked_threshold : Q;
  error_flag : bool
}.

(** [TwinState(blocked_threshold=thr)] with every other field defaulted. *)
Definition TwinState_new (thr : Q) : TwinState :=
  {| cell_state := IDLE; parts := ∅; total_processed := 0;
     total_rejected := 0; last_event_time := 0%Q; system_start_time := 0%Q;
     blocked_threshold := thr; error_flag := false |}.

(** [TwinState()]: the dataclass defaults, [blocked_threshold = 5.0]. *)
Definition TwinState_default : TwinState := TwinState_new 5%Q.

(** Field setters, one per assignment [self.<field> = v] of the source. *)
Definition set_cell_state (s : TwinState) (c : CellState) : TwinState :=
  {| cell_state := c; parts := parts s; total_processed := total_processed s;
     total_rejected := total_rejected s; last_event_time := last_event_time s;
     system_start_time := system_start_time s;
     blocked_threshold := blocked_threshold s; error_flag := error_flag s |}.

Definition set_parts (s : TwinState) (m : gmap (option string) Part) : TwinState :=
  {| cell_state := cell_state s; parts := m; total_processed := total_processed s;
     total_rejected := total_rejected s; last_event_time := last_event_time s;
     system_start_time := system_start_time s;
     blocked_threshold := blocked_threshold s; error_flag := error_flag s |}.

Definition set_counters (s : TwinState) (p r : nat) : TwinState :=
  {| cell_state := cell_state s; parts := parts s; total_processed := p;
     total_rejected := r; last_event_time := last_event_time s;
     system_start_time := system_start_time s;
     blocked_threshold := blocked_threshold s; error_flag := error_flag s |}.

Definition set_last_event_time (s : TwinState) (t : Q) : TwinState :=
  {| cell_state := cell_state s; parts := parts s;
     total_processed := total_processed s; total_rejected := total_rejected s;
     last_event_time := t; system_start_time := system_start_time s;
     blocked_threshold := blocked_threshold s; error_flag := error_flag s |}.

Definition set_system_start_time (s : TwinState) (t : Q) : TwinState :=
  {| cell_state := cell_state s; parts := parts s;
     total_processed := total_processed s; total_rejected := total_rejected s;
     last_event_time := last_event_time s; system_start_time := t;
     blocked_threshold := blocked_threshold s; error_flag := error_flag s |}.

Definition set_error_flag (s : TwinState) (b : bool) : TwinState :=
  {| cell_state := cell_state s; parts := parts s;
     total_processed := total_processed s; total_rejected := total_rejected s;
     last_event_time := last_event_time s;
     system_start_time := system_start_time s;
     blocked_threshold := blocked_threshold s; error_flag := b |}.

(** [part.status = st; part.last_timestamp = t] on the aliased dict entry. *)
Definition update_part (p : Part) (st : PartStatus) (t : Q) : Part :=
  {| part_id := part_id p; status := st; last_timestamp := t |}.

Definition _get_or_create_part (s : TwinState) (pid : option string) (t : Q)
    : TwinState * Part :=
  match parts s !! pid with
  | Some p => (s, p)
  | None =>
      let p := {| part_id := pid; status := CREATED; last_timestamp := t |} in
      (set_parts s (<[pid := p]> (parts s)), p)
  end.

(** The [valid_flow] table of [validate_sequence]. *)
Definition valid_flow (st : PartStatus) : list EventType :=
  match st with
  | CREATED => [PART_ARRIVED]
  | ON_CONVEYOR => [SENSOR_READ]
  | AT_SENSOR => [ACTUATOR_TRIGGERED]
  | READY_TO_SORT => [PART_SORTED]
  | SORTED_OK => []
  | SORTED_NOK => []
  end.

Definition validate_sequence (p : Part) (et : EventType) : bool :=
  bool_decide (et ∈ valid_flow (status p)).

(** Python's [a > b] and [a == b] on floats. *)
Definition Qgt_bool (a b : Q) : bool := negb (Qle_bool a b).

Definition check_blocked (s : TwinState) (current_time : Q) : TwinState :=
  if Qeq_bool (last_event_time s) 0%Q then s
  else if Qgt_bool (current_time - last_event_time s)%Q (blocked_threshold s)
  then set_cell_state s BLOCKED
  else s.

Definition handle_event (s : TwinState) (e : Event) : option TwinState :=
  let t := timestamp e in
  let s1 := set_last_event_time s t in
  let s2 :=
    if decide (cell_state s1 = IDLE)
    then set_system_start_time (set_cell_state s1 RUNNING) t
    else s1 in
  let pid := data e !! "part_id"%string in
  let '(s3, part) := _get_or_create_part s2 pid t in
  if negb (validate_sequence part (type e)) then
    Some (set_error_flag (set_cell_state s3 ERROR) true)
  else
    let s4 :=
      match type e with
      | PART_ARRIVED =>
          Some (set_parts s3 (<[pid := update_part part ON_CONVEYOR t]> (parts s3)))
      | SENSOR_READ =>
          Some (set_parts s3 (<[pid := update_part part AT_SENSOR t]> (parts s3)))
      | ACTUATOR_TRIGGERED =>
          Some (set_parts s3 (<[pid := update_part part READY_TO_SORT t]> (parts s3)))
      | PART_SORTED =>
          match data e !! "outcome"%string with
          | None => None
          | Some outcome =>
              if String.eqb outcome "ok" then
                Some (set_counters
                        (set_parts s3 (<[pid := update_part part SORTED_OK t]> (parts s3)))
                        (S (total_processed s3)) (total_rejected s3))
              else
                Some (set_counters
                        (set_parts s3 (<[pid := update_part part SORTED_NOK t]> (parts s3)))
                        (S (total_processed s3)) (S (total_rejected s3)))
          end
      end in
    match s4 with
    | None => None
    | Some s4 => Some (check_blocked s4 t)
    end.

(** Handling a sequence of events one after the other; [None] once an
    exception escaped. *)
Fixpoint run (s : TwinState) (es : list Event) : option TwinState :=
  match es with
  | [] => Some s
  | e :: es' =>
      match handle_event s e with
      | None => None
      | Some s' => run s' es'
      end
  end.

Record Snapshot := mkSnapshot {
  snap_cell_state : CellState;
  snap_total_processed : nat;
  snap_total_rejected : nat;
  snap_parts_in_system : nat;
  snap_error : bool
}.

Definition snapshot (s : TwinState) : Snapshot :=
  {| snap_cell_state := cell_state s;
     snap_total_processed := total_processed s;
     snap_total_rejected := total_rejected s;
     snap_parts_in_system := size (parts s);
     snap_error := error_flag s |}.

Record Metrics := mkMetrics {
  m_total_processed : nat;
  m_total_rejected : nat;
  reject_rate : Q;
  throughput : Q;
  observation_window : Q
}.

Definition Q_of_nat (n : nat) : Q := inject_Z (Z.of_nat n).

Definition metrics_snapshot (s : TwinState) : Metrics :=
  let observation_window :=
    if Qeq_bool (system_start_time s) 0%Q || Qle_bool (last_event_time s) (system_start_time s)
    then 0%Q else (last_event_time s - system_start_time s)%Q in
  let throughput :=
    if Qgt_bool observation_window 0%Q
    then (Q_of_nat (total_processed s) / observation_window)%Q else 0%Q in
  let reject_rate :=
    if decide (0 < total_processed s)%nat
    then (Q_of_nat (total_rejected s) / Q_of_nat (total_processed s))%Q else 0%Q in
  {| m_total_processed := total_processed s;
     m_total_rejected := total_rejected s;
     reject_rate := reject_rate;
     throughput := throughput;
     observation_window := observation_window |}.

(** Small events for tests. *)
Definition ev (et : EventType) (t : Q) (kvs : list (string * string)) : Event :=
  {| type := et; timestamp := t; data := list_to_map kvs |}.

Example scenario_P1 :
  option_map snapshot
    (run TwinState_default
       [ev PART_ARRIVED 1 [("part_id", "P1")];
        ev SENSOR_READ 2 [("part_id", "P1"); ("result", "ok")];
        ev ACTUATOR_TRIGGERED 3 [("part_id", "P1"); ("decision", "ok_bin")];
        ev PART_SORTED 4 [("part_id", "P1"); ("outcome", "ok")]])%string
  = Some {| snap_cell_state := RUNNING; snap_total_processed := 1;
            snap_total_rejected := 0; snap_parts_in_system := 1;
            snap_error := false |}.
Proof. vm_compute. reflexivity. Qed.

(** Status of the part an event targets, as [_get_or_create_part] would
    find it: a missing part is created with status [CREATED]. *)
Definition current_status (s : TwinState) (pid : option string) : PartStatus :=
  match parts s !! pid with
  | Some p => status p
  | None => CREATED
  end.

(** ** Facts about [handle_event] *)

Lemma check_blocked_parts (s : TwinState) (t : Q) :
  parts (check_blocked s t) = parts s /\
  total_processed (check_blocked s t) = total_processed s /\
  total_rejected (check_blocked s t) = total_rejected s /\
  error_flag (check_blocked s t) = error_flag s /\
  last_event_time (check_blocked s t) = last_event_time s /\
  system_start_time (check_blocked s t) = system_start_time s /\
  blocked_threshold (check_blocked s t) = blocked_threshold s.
Proof.
  unfold check_blocked.
  destruct (Qeq_bool _ _); [repeat split|].
  destruct (Qgt_bool _ _); repeat split.
Qed.

Lemma validate_sequence_status (p : Part) (et : EventType) :
  validate_sequence p et = true <-> et ∈ valid_flow (status p).
Proof. unfold validate_sequence. apply bool_decide_eq_true. Qed.

(** The preamble of [handle_event] (time stamp, IDLE -> RUNNING,
    [_get_or_create_part]) as one state, and the part it returns. *)
Definition prelude (s : TwinState) (e : Event) : TwinState * Part :=
  let t := timestamp e in
  let s1 := set_last_event_time s t in
  let s2 :=
    if decide (cell_state s1 = IDLE)
    then set_system_start_time (set_cell_state s1 RUNNING) t
    else s1 in
  _get_or_create_part s2 (data e !! "part_id"%string) t.

Lemma prelude_facts (s : TwinState) (e : Event) :
  let pid := data e !! "part_id"%string in
  let '(s3, part) := prelude s e in
  parts s3 !! pid = Some part /\
  status part = current_status s pid /\
  (forall k, k <> pid -> parts s3 !! k = parts s !! k) /\
  (parts s3 !! pid = parts s !! pid \/
     (parts s !! pid = None /\
      part = {| part_id := pid; status := CREATED; last_timestamp := timestamp e |})) /\
  (dom (parts s3) = dom (parts s) ∪ {[pid]}) /\
  total_processed s3 = total_processed s /\
  total_rejected s3 = total_rejected s /\
  error_flag s3 = error_flag s /\
  last_event_time s3 = timestamp e /\
  blocked_threshold s3 = blocked_threshold s /\
  cell_state s3 = (if decide (cell_state s = IDLE) then RUNNING else cell_state s) /\
  system_start_time s3 =
    (if decide (cell_state s = IDLE) then timestamp e else system_start_time s).
Proof.
  unfold prelude, _get_or_create_part, current_status; simpl.
  destruct (decide (cell_state s = IDLE)) as [Hi|Hi]; simpl;
  destruct (parts s !! (data e !! "part_id"%string)) as [p|] eqn:Hp; simpl.
  all: repeat split.
  all: try (rewrite lookup_insert_eq; reflexivity).
  all: try assumption; try reflexivity.
  all: try (intros k Hk; rewrite lookup_insert_ne by congruence; reflexivity).
  all: try (intros k Hk; reflexivity).
  all: try (left; assumption); try (right; split; reflexivity).
  all: try (rewrite dom_insert_L; set_solver).
  all: try (apply elem_of_dom_2 in Hp; set_solver).
Qed.

(** The branch chosen by the [if etype == ...] chain: the new status and
    the increments of [total_processed] and [total_rejected]; [None] is
    the [KeyError] of [data["outcome"]]. *)
Definition transition (et : EventType) (outcome : option string)
    : option (PartStatus * nat * nat) :=
  match et with
  | PART_ARRIVED => Some (ON_CONVEYOR, 0, 0)
  | SENSOR_READ => Some (AT_SENSOR, 0, 0)
  | ACTUATOR_TRIGGERED => Some (READY_TO_SORT, 0, 0)
  | PART_SORTED =>
      match outcome with
      | None => None
      | Some o => if String.eqb o "ok" then Some (SORTED_OK, 1, 0)
                  else Some (SORTED_NOK, 1, 1)
      end
  end%nat.

Lemma set_counters_same (s : TwinState) m :
  set_counters (set_parts s m) (total_processed s) (total_rejected s) = set_parts s m.
Proof. destruct s; reflexivity. Qed.

Lemma handle_event_cases (s : TwinState) (e : Event) :
  let pid := data e !! "part_id"%string in
  let t := timestamp e in
  let '(s3, part) := prelude s e in
  if validate_sequence part (type e)
  then handle_event s e =
         match transition (type e) (data e !! "outcome"%string) with
         | None => None
         | Some (st', dp, dr) =>
             Some (check_blocked
                     (set_counters (set_parts s3 (<[pid := update_part part st' t]> (parts s3)))
                        (total_processed s3 + dp) (total_rejected s3 + dr)) t)
         end
  else handle_event s e = Some (set_error_flag (set_cell_state s3 ERROR) true).
Proof.
  unfold handle_event. fold (prelude s e).
  destruct (prelude s e) as [s3 part].
  destruct (validate_sequence part (type e)); simpl; [|reflexivity].
  destruct (type e); simpl;
    try (rewrite !Nat.add_0_r, set_counters_same; reflexivity).
  destruct (data e !! "outcome"%string) as [o|]; [|reflexivity].
  destruct (String.eqb o "ok"); rewrite ?Nat.add_0_r, ?Nat.add_1_r; reflexivity.
Qed.

Lemma handle_event_valid (s : TwinState) (e : Event) st' dp dr :
  let pid := data e !! "part_id"%string in
  type e ∈ valid_flow (current_status s pid) ->
  transition (type e) (data e !! "outcome"%string) = Some (st', dp, dr) ->
  exists s'', handle_event s e = Some s'' /\
    current_status s'' pid = st' /\
    (forall k, k <> pid -> parts s'' !! k = parts s !! k) /\
    total_processed s'' = (total_processed s + dp)%nat /\
    total_rejected s'' = (total_rejected s + dr)%nat /\
    error_flag s'' = error_flag s.
Proof.
  intros pid Hv Ht. subst pid.
  pose proof (handle_event_cases s e) as Hc.
  pose proof (prelude_facts s e) as Hf.
  destruct (prelude s e) as [s3 part]; simpl in Hc, Hf.
  destruct Hf as (Hl & Hst & Hk & _ & _ & Hp & Hr & He & _).
  assert (Hval : validate_sequence part (type e) = true)
    by (apply validate_sequence_status; rewrite Hst; exact Hv).
  rewrite Hval, Ht in Hc.
  eexists; split; [exact Hc|].
  destruct (check_blocked_parts
              (set_counters (set_parts s3 (<[data e !! "part_id"%string := update_part part st' (timestamp e)]> (parts s3)))
                 (total_processed s3 + dp) (total_rejected s3 + dr)) (timestamp e))
    as (Q1 & Q2 & Q3 & Q4 & _).
  unfold current_status. rewrite Q1, Q2, Q3, Q4. simpl.
  rewrite lookup_insert_eq. repeat split; try congruence.
  intros k Hne. rewrite lookup_insert_ne by congruence. apply Hk; exact Hne.
Qed.

(** A transition always leaves the status it was accepted from. *)
Lemma transition_changes_status (st : PartStatus) et o st' dp dr :
  et ∈ valid_flow st -> transition et o = Some (st', dp, dr) -> st' <> st.
Proof.
  intros Hv Ht.
  destruct st; simpl in Hv;
    repeat match goal with
           | H : _ ∈ [] |- _ => apply not_elem_of_nil in H; contradiction
           | H : _ ∈ [_] |- _ => apply list_elem_of_singleton in H; subst
           end;
    simpl in Ht;
    try (injection Ht as <- <- <-; discriminate).
  destruct o as [o|]; [|discriminate].
  destruct (String.eqb o "ok"); injection Ht as <- <- <-; discriminate.
Qed.

Lemma handle_event_invalid (s : TwinState) (e : Event) :
  let pid := data e !! "part_id"%string in
  type e ∉ valid_flow (current_status s pid) ->
  exists s', handle_event s e = Some s' /\
    cell_state s' = ERROR /\ error_flag s' = true /\
    current_status s' pid = current_status s pid /\
    total_processed s' = total_processed s /\
    total_rejected s' = total_rejected s /\
    (forall k, k <> pid -> parts s' !! k = parts s !! k) /\
    (parts s' !! pid = parts s !! pid \/
      (parts s !! pid = None /\
       parts s' !! pid =
         Some {| part_id := pid; status := CREATED; last_timestamp := timestamp e |})) /\
    dom (parts s') = dom (parts s) ∪ {[pid]} /\
    last_event_time s' = timestamp e /\
    blocked_threshold s' = blocked_threshold s.
Proof.
  intros pid Hv. subst pid.
  pose proof (handle_event_cases s e) as Hc.
  pose proof (prelude_facts s e) as Hf.
  destruct (prelude s e) as [s3 part]; simpl in Hc, Hf.
  destruct Hf as (Hl & Hst & Hk & Halt & Hd & Hp & Hr & He & Ht & Hb & _).
  assert (Hval : validate_sequence part (type e) = false).
  { destruct (validate_sequence part (type e)) eqn:E; [|reflexivity].
    apply validate_sequence_status in E. rewrite Hst in E. contradiction. }
  rewrite Hval in Hc.
  eexists; split; [exact Hc|]. simpl.
  unfold current_status at 1; simpl. rewrite Hl.
  repeat split; try assumption.
  destruct Halt as [Ha|[Ha Hpart]]; [left; congruence|right; split; congruence].
Qed.

(** ** Claims about [TwinState.handle_event] *)

(** C1: an event whose type is not accepted from the target part's
    current status sets [cell_state = ERROR] and [error_flag = True],
    leaves that part's status and both counters unchanged, applies no
    transition (the parts map only gains the lazily created [CREATED]
    entry), and the handler goes on applying later events: a later event
    accepted from its part's status and able to run to completion is
    applied, moving that part to a different status. *)
Theorem C1_sequence_violation_dropped (s : TwinState) (e : Event) :
  let pid := data e !! "part_id"%string in
  type e ∉ valid_flow (current_status s pid) ->
  exists s', handle_event s e = Some s' /\
    cell_state s' = ERROR /\ error_flag s' = true /\
    current_status s' pid = current_status s pid /\
    total_processed s' = total_processed s /\
    total_rejected s' = total_rejected s /\
    (forall k, k <> pid -> parts s' !! k = parts s !! k) /\
    (parts s' !! pid = parts s !! pid \/
      (parts s !! pid = None /\
       parts s' !! pid =
         Some {| part_id := pid; status := CREATED; last_timestamp := timestamp e |})) /\
    (forall e' : Event,
       let pid' := data e' !! "part_id"%string in
       type e' ∈ valid_flow (current_status s' pid') ->
       transition (type e') (data e' !! "outcome"%string) <> None ->
       exists s'', handle_event s' e' = Some s'' /\
         current_status s'' pid' <> current_status s' pid').
Proof.
  intros pid Hv.
  destruct (handle_event_invalid s e Hv)
    as (s' & Hs' & Hc & Hf & Hst & Hp & Hr & Hk & Hpid & _).
  exists s'. do 8 (split; [assumption|]).
  intros e' pid' Hv' Ht'. subst pid'.
  destruct (transition (type e') (data e' !! "outcome"%string))
    as [[[st' dp] dr]|] eqn:Ht; [|contradiction].
  destruct (handle_event_valid s' e' st' dp dr Hv' Ht) as (s'' & H'' & Hst'' & _).
  exists s''. split; [exact H''|].
  rewrite Hst''. eapply transition_changes_status; eassumption.
Qed.

Lemma C1_sequence_violation_dropped_witness :
  let e := ev SENSOR_READ 1 [("part_id", "P2"); ("result", "ok")]%string in
  (type e ∉ valid_flow (current_status TwinState_default (data e !! "part_id"%string))) /\
  (exists s', handle_event TwinState_default e = Some s' /\
    cell_state s' = ERROR /\ error_flag s' = true /\
    current_status s' (data e !! "part_id"%string) = CREATED).
Proof.
  intros e.
  assert (Hv : type e ∉ valid_flow (current_status TwinState_default (data e !! "part_id"%string)))
    by (vm_compute; intros H; apply list_elem_of_singleton in H; discriminate).
  split; [exact Hv|].
  destruct (C1_sequence_violation_dropped TwinState_default e Hv)
    as (s' & H1 & H2 & H3 & H4 & _).
  exists s'. split; [exact H1|]. split; [exact H2|]. split; [exact H3|].
  rewrite H4. reflexivity.
Defined.

(** *** Sequences of events *)

Lemma run_app (s : TwinState) (es : list Event) (e : Event) :
  run s (es ++ [e]) =
    match run s es with None => None | Some s' => handle_event s' e end.
Proof.
  revert s. induction es as [|e0 es IH]; intros s; simpl.
  - destruct (handle_event s e); reflexivity.
  - destruct (handle_event s e0); [apply IH|reflexivity].
Qed.

(** The events of a sequence that target one part. *)
Definition events_of (pid : option string) (es : list Event) : list Event :=
  filter (fun e => data e !! "part_id"%string = pid) es.

(** The canonical per-part order PART_ARRIVED -> SENSOR_READ ->
    ACTUATOR_TRIGGERED -> PART_SORTED: the events of every part, in
    sequence order, are a prefix of it. *)
Definition canonical_order : list EventType :=
  [PART_ARRIVED; SENSOR_READ; ACTUATOR_TRIGGERED; PART_SORTED].

Definition respects_canonical_order (es : list Event) : Prop :=
  forall pid, map type (events_of pid es) `prefix_of` canonical_order.

(** The payload schema of PART_SORTED: [outcome] is ["ok"] or ["nok"]. *)
Definition well_formed_outcome (e : Event) : Prop :=
  type e = PART_SORTED ->
  data e !! "outcome"%string = Some "ok"%string \/
  data e !! "outcome"%string = Some "nok"%string.

#[global] Instance well_formed_outcome_dec (e : Event) : Decision (well_formed_outcome e).
Proof. unfold well_formed_outcome. apply _. Defined.

Definition count_sorted (es : list Event) : nat :=
  length (filter (fun e => type e = PART_SORTED) es).

Definition count_sorted_nok (es : list Event) : nat :=
  length (filter (fun e => type e = PART_SORTED /\
                           data e !! "outcome"%string = Some "nok"%string) es).

Lemma events_of_absent pid (es : list Event) :
  pid ∉ map (fun e => data e !! "part_id"%string) es -> events_of pid es = [].
Proof.
  induction es as [|e es IH]; intros Hn; [reflexivity|].
  unfold events_of in *. rewrite filter_cons.
  simpl in Hn. apply not_elem_of_cons in Hn as [Hne Hn].
  destruct (decide _) as [Heq|_]; [congruence|]. apply IH, Hn.
Qed.

(** A check of [respects_canonical_order] over the part ids that occur. *)
Lemma respects_canonical_order_check (es : list Event) :
  Forall (fun pid => map type (events_of pid es) `prefix_of` canonical_order)
    (map (fun e => data e !! "part_id"%string) es) ->
  respects_canonical_order es.
Proof.
  intros H pid.
  destruct (decide (pid ∈ map (fun e => data e !! "part_id"%string) es)) as [Hin|Hn].
  - rewrite Forall_forall in H. apply H, Hin.
  - rewrite events_of_absent by exact Hn. exists canonical_order. reflexivity.
Qed.

(** The status a part reaches by the transitions of its events. *)
Definition stage_of (evs : list Event) : PartStatus :=
  fold_left (fun st e =>
               match transition (type e) (data e !! "outcome"%string) with
               | Some (st', _, _) => st'
               | None => st
               end) evs CREATED.

Lemma events_of_snoc pid (es : list Event) (e : Event) :
  events_of pid (es ++ [e]) =
    events_of pid es ++ (if decide (data e !! "part_id"%string = pid) then [e] else []).
Proof.
  unfold events_of. rewrite filter_app, filter_cons, filter_nil.
  destruct (decide (data e !! "part_id"%string = pid)); reflexivity.
Qed.

Lemma respects_snoc (es : list Event) (e : Event) :
  respects_canonical_order (es ++ [e]) -> respects_canonical_order es.
Proof.
  intros H pid. specialize (H pid). rewrite events_of_snoc, map_app in H.
  eapply prefix_app_l; exact H.
Qed.

(** The next event of a part in canonical order is accepted from the
    status its previous events led to. *)
Lemma canonical_next_valid (evs : list Event) (e : Event) :
  map type (evs ++ [e]) `prefix_of` canonical_order ->
  type e ∈ valid_flow (stage_of evs).
Proof.
  intros [k Hk]. rewrite map_app in Hk.
  destruct evs as [|e1 [|e2 [|e3 [|e4 evs]]]]; simpl in Hk; injection Hk;
    intros; unfold stage_of; simpl;
    repeat match goal with H : _ = type _ |- _ => rewrite <- H; clear H end;
    simpl; try (apply list_elem_of_singleton; reflexivity).
  match goal with H : [] = _ |- _ => symmetry in H; apply app_eq_nil in H end.
  destruct H as [H _]. apply app_eq_nil in H. destruct H as [_ H]. discriminate.
Qed.

Lemma transition_counts (et : EventType) (o : option string) st' dp dr :
  transition et o = Some (st', dp, dr) ->
  (et = PART_SORTED -> o = Some "ok"%string \/ o = Some "nok"%string) ->
  dp = (if decide (et = PART_SORTED) then 1 else 0)%nat /\
  dr = (if decide (et = PART_SORTED /\ o = Some "nok"%string) then 1 else 0)%nat.
Proof.
  intros Ht Hw.
  destruct et; simpl in Ht;
    try (injection Ht as <- <- <-;
         split; [reflexivity|]; destruct (decide _) as [[? _]|]; [discriminate|reflexivity]).
  destruct (Hw eq_refl) as [-> | ->]; simpl in Ht; injection Ht as <- <- <-;
    (split; [reflexivity|]); destruct (decide _) as [[_ ?]|Hn]; try reflexivity;
    try discriminate; exfalso; apply Hn; split; reflexivity.
Qed.

Lemma transition_defined (e : Event) :
  well_formed_outcome e ->
  exists st' dp dr, transition (type e) (data e !! "outcome"%string) = Some (st', dp, dr).
Proof.
  intros Hw. unfold well_formed_outcome in Hw.
  destruct (type e); simpl; eauto.
  destruct (Hw eq_refl) as [-> | ->]; simpl; eauto.
Qed.

Lemma canonical_run (thr : Q) (es : list Event) :
  respects_canonical_order es -> Forall well_formed_outcome es ->
  exists s, run (TwinState_new thr) es = Some s /\
    (forall pid, current_status s pid = stage_of (events_of pid es)) /\
    total_processed s = count_sorted es /\
    total_rejected s = count_sorted_nok es.
Proof.
  induction es as [|e es IH] using rev_ind; intros Hr Hw.
  - exists (TwinState_new thr). split; [reflexivity|].
    split; [|split; reflexivity].
    intros pid. unfold current_status. simpl. rewrite lookup_empty. reflexivity.
  - apply Forall_app in Hw as [Hw He]. apply Forall_cons in He as [He _].
    destruct (IH (respects_snoc _ _ Hr) Hw) as (s & Hs & Hst & Hp & Hn).
    assert (Hv : type e ∈ valid_flow (current_status s (data e !! "part_id"%string))).
    { rewrite Hst. apply canonical_next_valid.
      specialize (Hr (data e !! "part_id"%string)).
      rewrite events_of_snoc in Hr.
      destruct (decide _) as [_|Hne]; [exact Hr|contradiction]. }
    destruct (transition_defined e He) as (st' & dp & dr & Ht).
    destruct (handle_event_valid s e st' dp dr Hv Ht)
      as (s'' & H'' & Hst'' & Hk & Hp'' & Hr'' & _).
    exists s''. rewrite run_app, Hs. split; [exact H''|].
    destruct (transition_counts _ _ _ _ _ Ht He) as [Hdp Hdr].
    split; [|split].
    + intros q. rewrite events_of_snoc.
      destruct (decide (data e !! "part_id"%string = q)) as [<-|Hne].
      * rewrite Hst''. unfold stage_of. rewrite fold_left_app. simpl.
        rewrite Ht. reflexivity.
      * rewrite app_nil_r, <- Hst. unfold current_status.
        rewrite Hk by congruence. reflexivity.
    + rewrite Hp'', Hp. unfold count_sorted.
      rewrite filter_app, length_app, filter_cons, filter_nil, Hdp.
      destruct (decide (type e = PART_SORTED)); reflexivity.
    + rewrite Hr'', Hn. unfold count_sorted_nok.
      rewrite filter_app, length_app, filter_cons, filter_nil, Hdr.
      destruct (decide (_ /\ _)); reflexivity.
Qed.

(** C2: for every sequence of well-formed events in which the events of
    each part follow the canonical order PART_ARRIVED -> SENSOR_READ ->
    ACTUATOR_TRIGGERED -> PART_SORTED, handling the sequence from a fresh
    [TwinState] never fails, and afterwards [total_processed] is the
    number of PART_SORTED events and [total_rejected] the number of
    PART_SORTED events with [outcome = "nok"]. *)
Theorem C2_canonical_counters (thr : Q) (es : list Event) :
  respects_canonical_order es -> Forall well_formed_outcome es ->
  exists s, run (TwinState_new thr) es = Some s /\
    total_processed s = count_sorted es /\
    total_rejected s = count_sorted_nok es.
Proof.
  intros Hr Hw.
  destruct (canonical_run thr es Hr Hw) as (s & Hs & _ & Hp & Hn).
  exists s. auto.
Qed.

Definition scenario_P3_P4 : list Event :=
  [ev PART_ARRIVED 1 [("part_id", "P3")];
   ev PART_ARRIVED 2 [("part_id", "P4")];
   ev SENSOR_READ 3 [("part_id", "P3"); ("result", "nok")];
   ev ACTUATOR_TRIGGERED 4 [("part_id", "P3"); ("decision", "reject_bin")];
   ev SENSOR_READ 5 [("part_id", "P4"); ("result", "ok")];
   ev PART_SORTED 6 [("part_id", "P3"); ("outcome", "nok")]]%string.

Lemma C2_canonical_counters_witness :
  respects_canonical_order scenario_P3_P4 /\
  Forall well_formed_outcome scenario_P3_P4 /\
  exists s, run (TwinState_new 5) scenario_P3_P4 = Some s /\
    total_processed s = 1%nat /\ total_rejected s = 1%nat.
Proof.
  assert (Hr : respects_canonical_order scenario_P3_P4).
  { apply respects_canonical_order_check. apply (bool_decide_eq_true_1 _). vm_compute. reflexivity. }
  assert (Hw : Forall well_formed_outcome scenario_P3_P4).
  { apply (bool_decide_eq_true_1 _). vm_compute. reflexivity. }
  split; [exact Hr|]. split; [exact Hw|].
  destruct (C2_canonical_counters 5 scenario_P3_P4 Hr Hw) as (s & Hs & Hp & Hn).
  exists s. split; [exact Hs|]. rewrite Hp, Hn. split; vm_compute; reflexivity.
Defined.

(** *** What one call of [handle_event] does to the scalar fields *)

Lemma check_blocked_same_time (s : TwinState) (t : Q) :
  last_event_time s = t -> (0 <= blocked_threshold s)%Q -> check_blocked s t = s.
Proof.
  intros Ht Hthr. unfold check_blocked. rewrite Ht.
  destruct (Qeq_bool t 0); [reflexivity|].
  unfold Qgt_bool.
  assert (Hle : Qle_bool (t - t) (blocked_threshold s) = true).
  { apply Qle_bool_iff. unfold Qminus. rewrite Qplus_opp_r. exact Hthr. }
  rewrite Hle. reflexivity.
Qed.

Lemma check_blocked_cell (s : TwinState) (t : Q) :
  cell_state (check_blocked s t) = BLOCKED \/ cell_state (check_blocked s t) = cell_state s.
Proof.
  unfold check_blocked.
  destruct (Qeq_bool _ _); [right; reflexivity|].
  destruct (Qgt_bool _ _); [left|right]; reflexivity.
Qed.

Definition accepted (s : TwinState) (e : Event) : bool :=
  bool_decide (type e ∈ valid_flow (current_status s (data e !! "part_id"%string))).

Lemma handle_event_summary (s : TwinState) (e : Event) (s' : TwinState) :
  handle_event s e = Some s' ->
  let pid := data e !! "part_id"%string in
  let started := if decide (cell_state s = IDLE) then RUNNING else cell_state s in
  blocked_threshold s' = blocked_threshold s /\
  last_event_time s' = timestamp e /\
  system_start_time s' =
    (if decide (cell_state s = IDLE) then timestamp e else system_start_time s) /\
  error_flag s' = (error_flag s || negb (accepted s e)) /\
  dom (parts s') = dom (parts s) ∪ {[pid]} /\
  (accepted s e = false ->
     cell_state s' = ERROR /\ total_processed s' = total_processed s /\
     total_rejected s' = total_rejected s /\
     current_status s' pid = current_status s pid) /\
  (accepted s e = true ->
     exists st' dp dr,
       transition (type e) (data e !! "outcome"%string) = Some (st', dp, dr) /\
       total_processed s' = (total_processed s + dp)%nat /\
       total_rejected s' = (total_rejected s + dr)%nat /\
       current_status s' pid = st' /\
       (cell_state s' = BLOCKED \/ cell_state s' = started) /\
       ((0 <= blocked_threshold s)%Q -> cell_state s' = started)).
Proof.
  intros Hs pid started. subst pid started.
  pose proof (handle_event_cases s e) as Hc.
  pose proof (prelude_facts s e) as Hf.
  unfold accepted.
  destruct (prelude s e) as [s3 part]; simpl in Hc, Hf.
  destruct Hf as (Hl & Hst & Hk & Halt & Hd & Hp & Hr & He & Ht & Hb & Hcs & Hss).
  rewrite <- Hst.
  destruct (validate_sequence part (type e)) eqn:Hval;
    pose proof Hval as Hval'; unfold validate_sequence in Hval'; rewrite Hval'.
  - rewrite Hc in Hs.
    destruct (transition (type e) (data e !! "outcome"%string))
      as [[[st' dp] dr]|] eqn:Htr; try rewrite Htr in Hs; [|discriminate Hs].
    injection Hs as <-.
    set (s4 := set_counters (set_parts s3 (<[data e !! "part_id"%string := update_part part st' (timestamp e)]> (parts s3)))
                 (total_processed s3 + dp) (total_rejected s3 + dr)).
    destruct (check_blocked_parts s4 (timestamp e)) as (Q1 & Q2 & Q3 & Q4 & Q5 & Q6 & Q7).
    pose proof (check_blocked_cell s4 (timestamp e)) as Qc.
    assert (Qb : (0 <= blocked_threshold s)%Q -> check_blocked s4 (timestamp e) = s4)
      by (intros Hthr; apply check_blocked_same_time; [exact Ht|simpl; rewrite Hb; exact Hthr]).
    set (s5 := check_blocked s4 (timestamp e)) in *.
    unfold current_status. rewrite Q1, Q2, Q3, Q4, Q5, Q6, Q7. subst s4. simpl.
    simpl in Qc.
    rewrite lookup_insert_eq, dom_insert_L, Hd, Hb, He, Ht, Hss, Hp, Hr.
    rewrite orb_false_r.
    repeat split; try reflexivity; try (intros; discriminate);
      try (match goal with |- @eq (gset _) _ _ => set_solver end).
    intros _. exists st', dp, dr. repeat split; try reflexivity.
    + destruct Qc as [H|H]; [left; exact H|right; rewrite H; exact Hcs].
    + intros Hthr. rewrite (Qb Hthr). exact Hcs.
  - rewrite Hc in Hs. injection Hs as <-.
    assert (Hcur : current_status (set_error_flag (set_cell_state s3 ERROR) true)
                     (data e !! "part_id"%string) = status part)
      by (unfold current_status; simpl; rewrite Hl; reflexivity).
    rewrite Hcur, Hst. simpl.
    rewrite orb_true_r.
    repeat split; try assumption; try (intros; discriminate); try reflexivity.
Qed.

Lemma handle_event_not_idle (s : TwinState) (e : Event) (s' : TwinState) :
  handle_event s e = Some s' -> cell_state s' <> IDLE.
Proof.
  intros Hs.
  destruct (handle_event_summary s e s' Hs) as (_ & _ & _ & _ & _ & Hrej & Hacc).
  destruct (accepted s e).
  - destruct (Hacc eq_refl) as (st' & dp & dr & _ & _ & _ & _ & [Hc|Hc] & _);
      rewrite Hc; [discriminate|].
    destruct (decide (cell_state s = IDLE)); [discriminate|assumption].
  - destruct (Hrej eq_refl) as [Hc _]. rewrite Hc. discriminate.
Qed.

Lemma transition_dr_le_dp et o st' dp dr :
  transition et o = Some (st', dp, dr) -> (dr <= dp)%nat.
Proof.
  intros Ht. destruct et; simpl in Ht; try (injection Ht as _ <- <-; lia).
  destruct o as [o|]; [|discriminate].
  destruct (String.eqb o "ok"); injection Ht as _ <- <-; lia.
Qed.

(** C3: with [blocked_threshold >= 0], no state reached by handling a
    sequence of events from a fresh [TwinState] has [cell_state = BLOCKED]:
    [check_blocked] runs with the event's own timestamp, which was just
    stored in [last_event_time], so [t - t > blocked_threshold] is false. *)
Theorem C3_never_blocked (thr : Q) (Hthr : (0 <= thr)%Q) (es : list Event) (s : TwinState) :
  run (TwinState_new thr) es = Some s -> cell_state s <> BLOCKED.
Proof.
  assert (Hgen : forall s0, blocked_threshold s0 = thr -> cell_state s0 <> BLOCKED ->
            run s0 es = Some s -> cell_state s <> BLOCKED).
  { induction es as [|e es IH]; intros s0 Hb Hc Hrun; simpl in Hrun.
    - injection Hrun as <-. exact Hc.
    - destruct (handle_event s0 e) as [s1|] eqn:Hs1; [|discriminate].
      destruct (handle_event_summary s0 e s1 Hs1) as (Hb1 & _ & _ & _ & _ & Hrej & Hacc).
      apply (IH s1); [congruence| |exact Hrun].
      destruct (accepted s0 e).
      + destruct (Hacc eq_refl) as (st' & dp & dr & _ & _ & _ & _ & _ & Hc1).
        rewrite (Hc1 ltac:(rewrite Hb; exact Hthr)).
        destruct (decide (cell_state s0 = IDLE)); [discriminate|exact Hc].
      + destruct (Hrej eq_refl) as [Hc1 _]. rewrite Hc1. discriminate. }
  apply (Hgen (TwinState_new thr)); [reflexivity|discriminate].
Qed.

Lemma C3_never_blocked_witness :
  (0 <= 5)%Q /\
  exists s, run (TwinState_new 5) scenario_P3_P4 = Some s /\ cell_state s <> BLOCKED.
Proof.
  assert (H5 : (0 <= 5)%Q) by (vm_compute; discriminate).
  split; [exact H5|].
  destruct (run (TwinState_new 5) scenario_P3_P4) as [s|] eqn:Hs.
  - exists s. split; [reflexivity|]. exact (C3_never_blocked 5 H5 scenario_P3_P4 s Hs).
  - vm_compute in Hs. discriminate.
Defined.

Lemma run_error_flag (s0 : TwinState) (es : list Event) (s : TwinState) :
  run s0 es = Some s ->
  (error_flag s = true <->
     error_flag s0 = true \/
     exists pre e post s1, es = pre ++ e :: post /\ run s0 pre = Some s1 /\
                           accepted s1 e = false).
Proof.
  revert s0. induction es as [|e es IH]; intros s0 Hrun; simpl in Hrun.
  - injection Hrun as <-. split; [left; assumption|].
    intros [H|(pre & e & post & s1 & Hes & _)]; [exact H|].
    destruct pre; discriminate.
  - destruct (handle_event s0 e) as [s1|] eqn:Hs1; [|discriminate].
    destruct (handle_event_summary s0 e s1 Hs1) as (_ & _ & _ & He & _).
    rewrite (IH s1 Hrun), He. split.
    + intros [H|(pre & e' & post & s2 & Hes & Hpre & Ha)].
      * apply orb_true_iff in H as [H|H]; [left; exact H|right].
        exists [], e, es, s0. split; [reflexivity|]. split; [reflexivity|].
        destruct (accepted s0 e); [discriminate|reflexivity].
      * right. exists (e :: pre), e', post, s2.
        split; [simpl; congruence|].
        split; [simpl; rewrite Hs1; exact Hpre|exact Ha].
    + intros [H|(pre & e' & post & s2 & Hes & Hpre & Ha)].
      * left. rewrite H. reflexivity.
      * destruct pre as [|e0 pre]; simpl in Hes, Hpre.
        -- injection Hes as <- _. injection Hpre as <-.
           left. rewrite Ha. apply orb_true_r.
        -- injection Hes as <- Hes. rewrite Hs1 in Hpre.
           right. exists pre, e', post, s2. auto.
Qed.

(** C5: in every state reached from a fresh [TwinState] by handling a
    sequence of events, [error_flag] is true exactly when some event of
    the sequence was rejected by sequence validation in the state it was
    handled in; and no call of [handle_event] turns a true [error_flag]
    back to false. *)
Theorem C5_error_flag_iff_rejection (thr : Q) (es : list Event) (s : TwinState) :
  run (TwinState_new thr) es = Some s ->
  (error_flag s = true <->
     exists pre e post s1, es = pre ++ e :: post /\
       run (TwinState_new thr) pre = Some s1 /\ accepted s1 e = false) /\
  (forall e s', error_flag s = true -> handle_event s e = Some s' -> error_flag s' = true).
Proof.
  intros Hrun. split.
  - rewrite (run_error_flag _ _ _ Hrun). simpl.
    split; [intros [H|H]; [discriminate|exact H]|intros H; right; exact H].
  - intros e s' Hf Hs.
    destruct (handle_event_summary s e s' Hs) as (_ & _ & _ & He & _).
    rewrite He, Hf. reflexivity.
Qed.

Lemma C5_error_flag_iff_rejection_witness :
  exists s, run TwinState_default [ev SENSOR_READ 1 [("part_id", "P2")]]%string = Some s /\
    error_flag s = true.
Proof.
  destruct (run TwinState_default [ev SENSOR_READ 1 [("part_id", "P2")]]%string) as [s|] eqn:Hs.
  - exists s. split; [reflexivity|].
    apply (proj1 (C5_error_flag_iff_rejection 5 _ s Hs)).
    exists [], (ev SENSOR_READ 1 [("part_id", "P2")]%string), [], TwinState_default.
    split; [reflexivity|]. split; [reflexivity|]. vm_compute. reflexivity.
  - vm_compute in Hs. discriminate.
Defined.

(** C6, as stated, fails: handling the first event does not always leave
    [cell_state = RUNNING]; a first event rejected by sequence validation
    (here SENSOR_READ for a new part) leaves it [ERROR]. *)
Lemma C6_first_event_running_counterexample :
  ~ (forall (e : Event) (s' : TwinState),
       handle_event TwinState_default e = Some s' -> cell_state s' = RUNNING).
Proof.
  intros H.
  specialize (H (ev SENSOR_READ 1 [("part_id", "P2"); ("result", "ok")]%string)).
  destruct (handle_event TwinState_default
              (ev SENSOR_READ 1 [("part_id", "P2"); ("result", "ok")]%string))
    as [s'|] eqn:Hs; [|vm_compute in Hs; discriminate].
  specialize (H s' eq_refl).
  vm_compute in Hs. injection Hs as <-. vm_compute in H. discriminate.
Qed.

(** C6 (amended): a fresh [TwinState] is IDLE; for every threshold,
    handling its first event records [system_start_time = timestamp], and
    after one or more events [cell_state] is never IDLE again; with
    [blocked_threshold >= 0] the first event leaves [cell_state = RUNNING]
    when it passes sequence validation and [ERROR] when it is rejected. *)
Theorem C6_first_event_starts (thr : Q) :
  cell_state (TwinState_new thr) = IDLE /\
  (forall e s', handle_event (TwinState_new thr) e = Some s' ->
     system_start_time s' = timestamp e /\
     ((0 <= thr)%Q ->
      cell_state s' = (if accepted (TwinState_new thr) e then RUNNING else ERROR))) /\
  (forall es s, es <> [] -> run (TwinState_new thr) es = Some s -> cell_state s <> IDLE).
Proof.
  split; [reflexivity|]. split.
  - intros e s' Hs.
    destruct (handle_event_summary _ e s' Hs) as (_ & _ & Hss & _ & _ & Hrej & Hacc).
    split; [exact Hss|]. intros Hthr.
    destruct (accepted (TwinState_new thr) e).
    + destruct (Hacc eq_refl) as (st' & dp & dr & _ & _ & _ & _ & _ & Hc).
      exact (Hc Hthr).
    + exact (proj1 (Hrej eq_refl)).
  - intros es s Hne Hrun.
    destruct es as [|e es] using rev_ind; [contradiction|].
    rewrite run_app in Hrun.
    destruct (run (TwinState_new thr) es) as [s0|]; [|discriminate].
    exact (handle_event_not_idle s0 e s Hrun).
Qed.

Lemma C6_first_event_starts_witness :
  exists s', handle_event (TwinState_new 5) (ev PART_ARRIVED 1 [("part_id", "P1")]%string) = Some s' /\
    system_start_time s' = 1%Q /\ cell_state s' = RUNNING.
Proof.
  assert (H5 : (0 <= 5)%Q) by (vm_compute; discriminate).
  destruct (handle_event (TwinState_new 5) (ev PART_ARRIVED 1 [("part_id", "P1")]%string))
    as [s'|] eqn:Hs; [|vm_compute in Hs; discriminate].
  destruct (proj1 (proj2 (C6_first_event_starts 5%Q)) _ s' Hs) as [Hss Hc].
  exists s'. split; [reflexivity|]. split; [exact Hss|].
  rewrite (Hc H5). vm_compute. reflexivity.
Defined.

(** C7: in every state reached from a fresh [TwinState] by handling a
    sequence of events, [total_rejected <= total_processed]; and no call of
    [handle_event] decreases either counter. *)
Theorem C7_counters_monotone_bounded (thr : Q) (es : list Event) (s : TwinState) :
  run (TwinState_new thr) es = Some s ->
  (total_rejected s <= total_processed s)%nat /\
  (forall e s', handle_event s e = Some s' ->
     (total_processed s <= total_processed s')%nat /\
     (total_rejected s <= total_rejected s')%nat).
Proof.
  intros Hrun. split.
  - assert (Hgen : forall s0, (total_rejected s0 <= total_processed s0)%nat ->
              run s0 es = Some s -> (total_rejected s <= total_processed s)%nat).
    { clear Hrun. induction es as [|e es IH]; intros s0 H0 Hr; simpl in Hr.
      - injection Hr as <-. exact H0.
      - destruct (handle_event s0 e) as [s1|] eqn:Hs1; [|discriminate].
        apply (IH s1); [|exact Hr].
        destruct (handle_event_summary s0 e s1 Hs1) as (_ & _ & _ & _ & _ & Hrej & Hacc).
        destruct (accepted s0 e).
        + destruct (Hacc eq_refl) as (st' & dp & dr & Ht & Hp & Hq & _).
          pose proof (transition_dr_le_dp _ _ _ _ _ Ht). lia.
        + destruct (Hrej eq_refl) as (_ & Hp & Hq & _). lia. }
    apply (Hgen (TwinState_new thr)); [simpl; lia|exact Hrun].
  - intros e s' Hs.
    destruct (handle_event_summary s e s' Hs) as (_ & _ & _ & _ & _ & Hrej & Hacc).
    destruct (accepted s e).
    + destruct (Hacc eq_refl) as (st' & dp & dr & Ht & Hp & Hq & _). lia.
    + destruct (Hrej eq_refl) as (_ & Hp & Hq & _). lia.
Qed.

Lemma C7_counters_monotone_bounded_witness :
  exists s, run (TwinState_new 5) scenario_P3_P4 = Some s /\
    (total_rejected s <= total_processed s)%nat.
Proof.
  destruct (run (TwinState_new 5) scenario_P3_P4) as [s|] eqn:Hs.
  - exists s. split; [reflexivity|].
    exact (proj1 (C7_counters_monotone_bounded 5 scenario_P3_P4 s Hs)).
  - vm_compute in Hs. discriminate.
Defined.

(** ** Claims about [metrics_snapshot] *)

(** C9: with no PART_SORTED applied ([total_processed = 0]) both
    [reject_rate] and [throughput] are 0.0; in general
    [reject_rate = total_rejected / total_processed] when
    [total_processed > 0] and 0.0 otherwise, and
    [throughput = total_processed / observation_window] when
    [observation_window > 0] and 0.0 otherwise (the window is never
    negative, so the guard covers the zero denominator). *)
Theorem C9_metrics_guarded (s : TwinState) :
  let m := metrics_snapshot s in
  (total_processed s = 0%nat -> reject_rate m == 0 /\ throughput m == 0)%Q /\
  ((0 < total_processed s)%nat ->
     reject_rate m = Q_of_nat (total_rejected s) / Q_of_nat (total_processed s))%Q /\
  (total_processed s = 0%nat -> reject_rate m = 0)%Q /\
  (0 < observation_window m ->
     throughput m = Q_of_nat (total_processed s) / observation_window m)%Q /\
  (~ (0 < observation_window m) -> throughput m = 0)%Q /\
  (0 <= observation_window m)%Q.
Proof.
  intros m. subst m. unfold metrics_snapshot; simpl.
  set (w := if Qeq_bool (system_start_time s) 0 || Qle_bool (last_event_time s) (system_start_time s)
            then 0%Q else (last_event_time s - system_start_time s)%Q).
  assert (Hw : (0 <= w)%Q).
  { subst w. destruct (Qeq_bool _ _ || Qle_bool _ _) eqn:Hc; [apply Qle_refl|].
    apply orb_false_iff in Hc as [_ Hc].
    assert (Hlt : (system_start_time s < last_event_time s)%Q).
    { apply Qnot_le_lt. intros Hle. apply Qle_bool_iff in Hle. congruence. }
    apply Qlt_le_weak. apply Qlt_minus_iff in Hlt. exact Hlt. }
  assert (Hgt : forall q : Q, Qgt_bool q 0 = true <-> (0 < q)%Q).
  { intros q. unfold Qgt_bool. split.
    - intros H. apply Qnot_le_lt. intros Hle. apply Qle_bool_iff in Hle.
      rewrite Hle in H. discriminate.
    - intros H. destruct (Qle_bool q 0) eqn:E; [|reflexivity].
      apply Qle_bool_iff in E. exfalso. apply (Qlt_not_le _ _ H E). }
  split; [|split; [|split; [|split; [|split]]]].
  - intros H0. rewrite H0. simpl.
    destruct (decide (0 < 0)%nat) as [Hl|_]; [lia|].
    split; [reflexivity|].
    destruct (Qgt_bool w 0); [|reflexivity].
    unfold Qdiv. apply Qmult_0_l.
  - intros Hp. destruct (decide (0 < total_processed s)%nat); [reflexivity|lia].
  - intros H0. rewrite H0. destruct (decide (0 < 0)%nat); [lia|reflexivity].
  - intros Hpos. apply Hgt in Hpos. rewrite Hpos. reflexivity.
  - intros Hn. destruct (Qgt_bool w 0) eqn:E; [|reflexivity].
    apply Hgt in E. contradiction.
  - exact Hw.
Qed.

(** ** Claims about the parts map *)

Lemma run_dom_mono (s : TwinState) (es : list Event) (s' : TwinState) :
  run s es = Some s' -> dom (parts s) ⊆ dom (parts s').
Proof.
  revert s. induction es as [|e es IH]; intros s Hrun; simpl in Hrun.
  - injection Hrun as <-. reflexivity.
  - destruct (handle_event s e) as [s1|] eqn:Hs1; [|discriminate].
    destruct (handle_event_summary s e s1 Hs1) as (_ & _ & _ & _ & Hd & _).
    transitivity (dom (parts s1)); [rewrite Hd; set_solver|exact (IH s1 Hrun)].
Qed.

(** C10: for an event whose [part_id] is not yet in the parts map,
    [handle_event] inserts the part (status CREATED) before validating,
    so even a rejected event leaves a CREATED part in the map and
    [parts_in_system] grows by one; the part is never removed by later
    events. *)
Theorem C10_part_created_before_validation (s : TwinState) (e : Event) :
  let pid := data e !! "part_id"%string in
  parts s !! pid = None ->
  (forall s', handle_event s e = Some s' ->
     pid ∈ dom (parts s') /\
     snap_parts_in_system (snapshot s') = S (snap_parts_in_system (snapshot s))) /\
  (accepted s e = false ->
     exists s', handle_event s e = Some s' /\
       parts s' !! pid =
         Some {| part_id := pid; status := CREATED; last_timestamp := timestamp e |} /\
       snap_parts_in_system (snapshot s') = S (snap_parts_in_system (snapshot s))) /\
  (forall s' es s'', handle_event s e = Some s' -> run s' es = Some s'' ->
     pid ∈ dom (parts s'')).
Proof.
  intros pid Hnone.
  assert (Hsize : forall s', handle_event s e = Some s' ->
            pid ∈ dom (parts s') /\
            snap_parts_in_system (snapshot s') = S (snap_parts_in_system (snapshot s))).
  { intros s' Hs.
    destruct (handle_event_summary s e s' Hs) as (_ & _ & _ & _ & Hd & _).
    split; [rewrite Hd; set_solver|].
    unfold snapshot; simpl. rewrite <- !size_dom, Hd.
    rewrite size_union.
    - rewrite size_singleton. lia.
    - apply disjoint_singleton_r. apply not_elem_of_dom. exact Hnone. }
  split; [exact Hsize|split].
  - intros Hacc.
    assert (Hv : type e ∉ valid_flow (current_status s pid)).
    { unfold accepted in Hacc. apply bool_decide_eq_false in Hacc. exact Hacc. }
    destruct (handle_event_invalid s e Hv) as (s' & Hs' & _ & _ & _ & _ & _ & _ & Halt & _).
    exists s'. split; [exact Hs'|]. split.
    + destruct Halt as [H|[_ H]]; [|exact H].
      unfold pid in *. rewrite H, Hnone. exfalso.
      destruct (Hsize s' Hs') as [Hin _].
      apply elem_of_dom in Hin as [p Hp]. unfold pid in Hp. congruence.
    + exact (proj2 (Hsize s' Hs')).
  - intros s' es s'' Hs Hrun.
    apply (run_dom_mono s' es s'' Hrun). exact (proj1 (Hsize s' Hs)).
Qed.

Lemma C10_part_created_before_validation_witness :
  let e := ev SENSOR_READ 1 [("part_id", "P2"); ("result", "ok")]%string in
  exists s', handle_event TwinState_default e = Some s' /\
    snap_parts_in_system (snapshot s') = 1%nat /\
    current_status s' (data e !! "part_id"%string) = CREATED.
Proof.
  intros e.
  assert (Hn : parts TwinState_default !! (data e !! "part_id"%string) = None)
    by (simpl; apply lookup_empty).
  destruct (C10_part_created_before_validation TwinState_default e Hn) as (_ & Hrej & _).
  destruct (Hrej ltac:(vm_compute; reflexivity)) as (s' & Hs & Hp & Hsz).
  exists s'. split; [exact Hs|]. split.
  - rewrite Hsz. reflexivity.
  - unfold current_status. rewrite Hp. reflexivity.
Defined.

(** ** twin_core/event_bus.py *)

(** Subscriber callbacks are handles: the bound method [_handle_event] of
    a [DigitalTwin] (identified by its object identity) or any other
    coroutine function. *)
Inductive SubscriberCallback :=
  | DigitalTwin_handle_event (twin : nat)
  | OtherCallback (tag : nat).

Record EventBus := mkEventBus {
  _queue : list Event;
  _subscribers : list SubscriberCallback
}.

Definition EventBus_new : EventBus := {| _queue := []; _subscribers := [] |}.

(** [self._subscribers.append(callback)] *)
Definition subscribe (b : EventBus) (cb : SubscriberCallback) : EventBus :=
  {| _queue := _queue b; _subscribers := _subscribers b ++ [cb] |}.

(** [await self._queue.put(event)] on the unbounded queue. *)
Definition publish (b : EventBus) (e : Event) : EventBus :=
  {| _queue := _queue b ++ [e]; _subscribers := _subscribers b |}.

Section Dispatch.
(** The effect of awaiting one callback on one event, on the rest of the
    program's state [W]. *)
Context {W : Type} (invoke : SubscriberCallback -> Event -> W -> W).

(** The state together with the log of callback invocations so far. *)
Definition World : Type := (W * list (SubscriberCallback * Event))%type.

(** [for callback in self._subscribers: await callback(event)]: each
    callback runs to completion before the next one starts. *)
Definition _dispatch (subs : list SubscriberCallback) (e : Event) (w : World) : World :=
  fold_left (fun acc cb => (invoke cb e acc.1, acc.2 ++ [(cb, e)])) subs w.

(** The interleaving of producers and the dispatch loop: a producer's
    [publish], or one iteration of the [while True] loop of [run]
    ([await self._queue.get()] then [await self._dispatch(event)]);
    [get] on an empty queue suspends, so that iteration makes no step. *)
Inductive BusAction :=
  | Publish (e : Event)
  | RunIteration.

Definition bus_step (c : EventBus * World) (a : BusAction) : EventBus * World :=
  let '(b, w) := c in
  match a with
  | Publish e => (publish b e, w)
  | RunIteration =>
      match _queue b with
      | [] => (b, w)
      | e :: q => ({| _queue := q; _subscribers := _subscribers b |},
                   _dispatch (_subscribers b) e w)
      end
  end.

Definition bus_exec (c : EventBus * World) (sched : list BusAction) : EventBus * World :=
  fold_left bus_step sched c.

Fixpoint published (sched : list BusAction) : list Event :=
  match sched with
  | [] => []
  | Publish e :: rest => e :: published rest
  | RunIteration :: rest => published rest
  end.

(** The invocations that delivering [es] to [subs] makes, in order. *)
Definition deliveries (subs : list SubscriberCallback) (es : list Event)
    : list (SubscriberCallback * Event) :=
  flat_map (fun e => map (fun cb => (cb, e)) subs) es.

(** Running the invocations of a log one after the other. *)
Definition replay (log : list (SubscriberCallback * Event)) (w : W) : W :=
  fold_left (fun w ce => invoke ce.1 ce.2 w) log w.

Lemma dispatch_spec (subs : list SubscriberCallback) (e : Event) (w : W) log :
  _dispatch subs e (w, log) =
    (replay (map (fun cb => (cb, e)) subs) w, log ++ map (fun cb => (cb, e)) subs).
Proof.
  unfold _dispatch, replay. revert w log.
  induction subs as [|cb subs IH]; intros w log; simpl.
  - rewrite app_nil_r. reflexivity.
  - rewrite IH, <- app_assoc. reflexivity.
Qed.

Lemma replay_app l1 l2 w : replay (l1 ++ l2) w = replay l2 (replay l1 w).
Proof. unfold replay. apply fold_left_app. Qed.

Lemma bus_exec_invariant (sched : list BusAction) (b : EventBus) (w : W) log :
  let subs := _subscribers b in
  let '(b', (w', log')) := bus_exec (b, (w, log)) sched in
  exists k,
    log' = log ++ deliveries subs (firstn k (_queue b ++ published sched)) /\
    _queue b' = skipn k (_queue b ++ published sched) /\
    _subscribers b' = subs /\
    w' = replay (deliveries subs (firstn k (_queue b ++ published sched))) w.
Proof.
  revert b w log. induction sched as [|a sched IH]; intros b w log; simpl.
  - exists 0%nat. rewrite app_nil_r. simpl. rewrite app_nil_r.
    repeat split; reflexivity.
  - destruct a as [e|].
    + specialize (IH (publish b e) w log). simpl in IH.
      rewrite <- app_assoc in IH. exact IH.
    + destruct (_queue b) as [|e q] eqn:Hq.
      * specialize (IH b w log). rewrite Hq in IH. exact IH.
      * rewrite dispatch_spec.
        specialize (IH {| _queue := q; _subscribers := _subscribers b |}
                      (replay (map (fun cb => (cb, e)) (_subscribers b)) w)
                      (log ++ map (fun cb => (cb, e)) (_subscribers b))).
        simpl in IH.
        destruct (bus_exec _ sched) as [b' [w' log']].
        destruct IH as (k & Hlog & Hqueue & Hsubs & Hw).
        exists (S k). simpl.
        unfold deliveries in *. simpl.
        rewrite Hlog, <- app_assoc, Hw, replay_app.
        repeat split; assumption || reflexivity.
Qed.
End Dispatch.

Lemma subscribe_all (subs : list SubscriberCallback) (b : EventBus) :
  fold_left subscribe subs b =
    {| _queue := _queue b; _subscribers := _subscribers b ++ subs |}.
Proof.
  revert b. induction subs as [|cb subs IH]; intros b; simpl.
  - rewrite app_nil_r. destruct b; reflexivity.
  - rewrite IH. simpl. rewrite <- app_assoc. reflexivity.
Qed.

(** C8: on a bus whose callbacks were registered in the order [subs], for
    every interleaving of producers' [publish] calls with iterations of
    the dispatch loop, the invocations made so far are exactly: the first
    [k] published events, in publish order, each delivered to every
    callback in registration order; the [k] events have left the queue and
    the others wait in it in publish order; and the program state is that
    of running those invocations one after the other, each to completion
    before the next. *)
Theorem C8_fifo_dispatch_in_registration_order {W : Type}
    (invoke : SubscriberCallback -> Event -> W -> W)
    (subs : list SubscriberCallback) (sched : list BusAction) (w0 : W) :
  let '(b', (w', log)) :=
    bus_exec invoke (fold_left subscribe subs EventBus_new, (w0, [])) sched in
  exists k,
    log = deliveries subs (firstn k (published sched)) /\
    _queue b' = skipn k (published sched) /\
    w' = replay invoke log w0.
Proof.
  rewrite subscribe_all.
  pose proof (bus_exec_invariant invoke sched
                {| _queue := []; _subscribers := subs |} w0 []) as H.
  simpl in H.
  destruct (bus_exec invoke _ sched) as [b' [w' log]].
  destruct H as (k & Hlog & Hq & _ & Hw).
  exists k. subst log. repeat split; assumption.
Qed.

(** ** twin_core/twin.py *)

Record DigitalTwin := mkDigitalTwin {
  _bus : EventBus;
  _state : TwinState;
  _self : nat
}.

(** [DigitalTwin(bus, **kwargs)] for a new object of identity [self]:
    [__init__(self, bus)] takes no keyword argument, so any keyword
    argument is a [TypeError] ([None]); otherwise the twin keeps the
    (shared) bus, starts from [TwinState()] and appends its bound
    [_handle_event] to the bus's subscribers. The lock and the log call
    have no effect on the state. The updated shared bus is returned with
    the twin. *)
Definition DigitalTwin_init (self : nat) (bus : EventBus) (kwargs : list (string * Q))
    : option (DigitalTwin * EventBus) :=
  match kwargs with
  | _ :: _ => None
  | [] =>
      let bus' := subscribe bus (DigitalTwin_handle_event self) in
      Some ({| _bus := bus'; _state := TwinState_default; _self := self |}, bus')
  end.

(** The twin's callback: [self._state.handle_event(event)] under the lock. *)
Definition _handle_event (tw : DigitalTwin) (e : Event) : option DigitalTwin :=
  match handle_event (_state tw) e with
  | None => None
  | Some s' => Some {| _bus := _bus tw; _state := s'; _self := _self tw |}
  end.

(** [main_async] up to the construction of the twin, with
    [config.twin.blocked_threshold = thr]:
    [twin = DigitalTwin(bus, blocked_threshold=thr)] on a fresh bus. *)
Definition main_async_twin (thr : Q) : option (DigitalTwin * EventBus) :=
  DigitalTwin_init 0 EventBus_new [("blocked_threshold"%string, thr)].

(** C4 (code defect): the configured threshold cannot reach the twin.
    [main_async] passes [blocked_threshold=config.twin.blocked_threshold]
    to [DigitalTwin], whose constructor has no such parameter, so the call
    raises [TypeError] for every configured value; and a construction that
    succeeds ([DigitalTwin(bus)]) subscribes the handler but always starts
    from the default [blocked_threshold = 5.0]. *)
Theorem C4_configured_threshold_not_applied :
  (forall thr : Q, main_async_twin thr = None) /\
  (forall self bus kwargs tw bus',
     DigitalTwin_init self bus kwargs = Some (tw, bus') ->
     kwargs = [] /\
     _subscribers bus' = _subscribers bus ++ [DigitalTwin_handle_event self] /\
     _bus tw = bus' /\
     _state tw = TwinState_default /\
     blocked_threshold (_state tw) = 5%Q).
Proof.
  split.
  - intros thr. reflexivity.
  - intros self bus kwargs tw bus' H.
    destruct kwargs as [|kv kwargs]; [|discriminate].
    injection H as <- <-. repeat split; reflexivity.
Qed.

(** * Further properties of the code *)

(** X1: for events whose payload values are strings (the payloads every
    producer of the repository sends; a non-hashable [part_id] such as a
    list would raise [TypeError] and is outside this model),
    [handle_event] raises (the [KeyError] of [data["outcome"]]) exactly for
    an accepted PART_SORTED event whose payload has no [outcome]; every
    other such event is handled without exception. *)
Theorem X1_handle_event_keyerror (s : TwinState) (e : Event) :
  handle_event s e = None <->
  accepted s e = true /\ type e = PART_SORTED /\ data e !! "outcome"%string = None.
Proof.
  pose proof (handle_event_cases s e) as Hc.
  pose proof (prelude_facts s e) as Hf.
  unfold accepted.
  destruct (prelude s e) as [s3 part]; simpl in Hc, Hf.
  destruct Hf as (_ & Hst & _).
  rewrite <- Hst. fold (validate_sequence part (type e)).
  destruct (validate_sequence part (type e)); rewrite Hc.
  - destruct (type e) eqn:Ht; simpl;
      try (split; [discriminate|intros (_ & H & _); discriminate]).
    destruct (data e !! "outcome"%string) as [o|].
    + destruct (String.eqb o "ok");
        (split; [discriminate|intros (_ & _ & H); discriminate]).
    + split; [intros _; auto|reflexivity].
  - split; [discriminate|intros (H & _); discriminate].
Qed.

Lemma X1_handle_event_keyerror_witness :
  handle_event
    (set_parts TwinState_default
       {[ Some "P9"%string := {| part_id := Some "P9"%string; status := READY_TO_SORT;
                                  last_timestamp := 1 |} ]})
    (ev PART_SORTED 2 [("part_id", "P9")]%string) = None.
Proof.
  apply X1_handle_event_keyerror. vm_compute. auto.
Defined.

(** X2: an accepted PART_SORTED event whose [outcome] is anything other
    than the string ["ok"] (for instance ["NOK"] or ["bad"]) sorts the part
    to SORTED_NOK and increments both [total_processed] and
    [total_rejected]. *)
Theorem X2_non_ok_outcome_rejected (s : TwinState) (e : Event) (o : string) :
  let pid := data e !! "part_id"%string in
  current_status s pid = READY_TO_SORT ->
  type e = PART_SORTED ->
  data e !! "outcome"%string = Some o -> o <> "ok"%string ->
  exists s', handle_event s e = Some s' /\
    current_status s' pid = SORTED_NOK /\
    total_processed s' = S (total_processed s) /\
    total_rejected s' = S (total_rejected s).
Proof.
  intros pid Hst Ht Ho Hne.
  assert (Htr : transition (type e) (data e !! "outcome"%string) = Some (SORTED_NOK, 1%nat, 1%nat)).
  { rewrite Ht, Ho. simpl. apply String.eqb_neq in Hne. rewrite Hne. reflexivity. }
  assert (Hv : type e ∈ valid_flow (current_status s pid))
    by (subst pid; rewrite Hst, Ht; apply list_elem_of_singleton; reflexivity).
  destruct (handle_event_valid s e _ _ _ Hv Htr) as (s' & Hs & Hc & _ & Hp & Hr & _).
  exists s'. rewrite Hp, Hr, !Nat.add_1_r. auto.
Qed.

Lemma X2_non_ok_outcome_rejected_witness :
  let s := set_parts TwinState_default
             {[ Some "P9"%string := {| part_id := Some "P9"%string; status := READY_TO_SORT;
                                       last_timestamp := 1 |} ]} in
  let e := ev PART_SORTED 2 [("part_id", "P9"); ("outcome", "NOK")]%string in
  exists s', handle_event s e = Some s' /\ total_rejected s' = 1%nat.
Proof.
  intros s e.
  destruct (X2_non_ok_outcome_rejected s e "NOK"%string
              ltac:(reflexivity) ltac:(reflexivity) ltac:(reflexivity) ltac:(discriminate))
    as (s' & Hs & _ & _ & Hr).
  exists s'. split; [exact Hs|]. rewrite Hr. reflexivity.
Defined.

(** X3: a part that has been sorted (SORTED_OK or SORTED_NOK) is frozen:
    every later event for it, a duplicate PART_SORTED included, is rejected
    (cell ERROR, [error_flag] set), its status stays, and the counters do
    not count it again. *)
Theorem X3_sorted_part_frozen (s : TwinState) (e : Event) :
  let pid := data e !! "part_id"%string in
  current_status s pid = SORTED_OK \/ current_status s pid = SORTED_NOK ->
  exists s', handle_event s e = Some s' /\
    current_status s' pid = current_status s pid /\
    cell_state s' = ERROR /\ error_flag s' = true /\
    total_processed s' = total_processed s /\
    total_rejected s' = total_rejected s.
Proof.
  intros pid Hst.
  assert (Hv : type e ∉ valid_flow (current_status s pid))
    by (destruct Hst as [-> | ->]; apply not_elem_of_nil).
  destruct (handle_event_invalid s e Hv) as (s' & Hs & Hc & Hf & Hcur & Hp & Hr & _).
  exists s'. auto 8.
Qed.

Lemma X3_sorted_part_frozen_witness :
  exists s s', run TwinState_default scenario_P3_P4 = Some s /\
    handle_event s (ev PART_SORTED 7 [("part_id", "P3"); ("outcome", "nok")]%string) = Some s' /\
    total_rejected s' = 1%nat.
Proof.
  destruct (run TwinState_default scenario_P3_P4) as [s|] eqn:Hrun;
    [|vm_compute in Hrun; discriminate].
  set (e := ev PART_SORTED 7 [("part_id", "P3"); ("outcome", "nok")]%string).
  assert (Hst : current_status s (data e !! "part_id"%string) = SORTED_OK \/
                current_status s (data e !! "part_id"%string) = SORTED_NOK).
  { right. vm_compute in Hrun. injection Hrun as <-. vm_compute. reflexivity. }
  destruct (X3_sorted_part_frozen s e Hst) as (s' & Hs & _ & _ & _ & _ & Hr).
  exists s, s'. split; [reflexivity|]. split; [exact Hs|].
  rewrite Hr. vm_compute in Hrun. injection Hrun as <-. reflexivity.
Defined.

(** *** Invariants of the parts map *)

(** [TwinState.get_part] *)
Definition get_part (s : TwinState) (pid : option string) : option Part :=
  parts s !! pid.

Lemma run_preserves (P : TwinState -> Prop) :
  (forall s e s', P s -> handle_event s e = Some s' -> P s') ->
  forall s0 es s, P s0 -> run s0 es = Some s -> P s.
Proof.
  intros Hstep s0 es. revert s0.
  induction es as [|e es IH]; intros s0 s H0 Hrun; simpl in Hrun.
  - injection Hrun as <-. exact H0.
  - destruct (handle_event s0 e) as [s1|] eqn:Hs1; [|discriminate].
    exact (IH s1 s (Hstep s0 e s1 H0 Hs1) Hrun).
Qed.

(** The parts map after one call: the event's key is (re)bound, to the
    part [_get_or_create_part] returned (rejected event) or to that part
    after its transition (accepted event). *)
Lemma handle_event_parts (s : TwinState) (e : Event) (s' : TwinState) :
  handle_event s e = Some s' ->
  let pid := data e !! "part_id"%string in
  let part := (prelude s e).2 in
  status part = current_status s pid /\
  (parts s !! pid = Some part \/
   (parts s !! pid = None /\
    part = {| part_id := pid; status := CREATED; last_timestamp := timestamp e |})) /\
  (accepted s e = false -> parts s' = <[pid := part]> (parts s)) /\
  (accepted s e = true ->
     exists st' dp dr,
       transition (type e) (data e !! "outcome"%string) = Some (st', dp, dr) /\
       parts s' = <[pid := update_part part st' (timestamp e)]> (parts s)).
Proof.
  intros Hs pid part. subst pid part.
  pose proof (handle_event_cases s e) as Hc.
  pose proof (prelude_facts s e) as Hf.
  unfold accepted.
  destruct (prelude s e) as [s3 part]; simpl in Hc, Hf |- *.
  destruct Hf as (Hl & Hst & Hk & Halt & _).
  assert (Hp3 : parts s3 = <[data e !! "part_id"%string := part]> (parts s)).
  { apply map_eq. intros k.
    destruct (decide (k = data e !! "part_id"%string)) as [->|Hne].
    - rewrite lookup_insert_eq. exact Hl.
    - rewrite lookup_insert_ne by congruence. apply Hk, Hne. }
  split; [exact Hst|]. split.
  { destruct Halt as [Ha|Ha]; [left; congruence|right; exact Ha]. }
  rewrite <- Hst. fold (validate_sequence part (type e)).
  destruct (validate_sequence part (type e)); split; try discriminate.
  - intros _. destruct (transition (type e) (data e !! "outcome"%string))
      as [[[st' dp] dr]|] eqn:Htr; rewrite Hc in Hs; [|discriminate].
    injection Hs as <-. exists st', dp, dr. split; [reflexivity|].
    destruct (check_blocked_parts
                (set_counters (set_parts s3 (<[data e !! "part_id"%string := update_part part st' (timestamp e)]> (parts s3)))
                   (total_processed s3 + dp) (total_rejected s3 + dr)) (timestamp e)) as (Q1 & _).
    rewrite Q1. simpl. rewrite Hp3, insert_insert_eq. reflexivity.
  - intros _. rewrite Hc in Hs. injection Hs as <-. simpl. exact Hp3.
Qed.

Definition is_sorted (st : PartStatus) : bool :=
  match st with SORTED_OK | SORTED_NOK => true | _ => false end.

Definition is_sorted_nok (st : PartStatus) : bool :=
  match st with SORTED_NOK => true | _ => false end.

(** The number of parts of a map whose status satisfies [f]. *)
Definition count_parts (f : PartStatus -> bool) (m : gmap (option string) Part) : nat :=
  size (filter (fun kv : option string * Part => f (status kv.2) = true) m).

Lemma count_parts_insert (f : PartStatus -> bool) (m : gmap (option string) Part)
    (i : option string) (p : Part) :
  count_parts f (<[i:=p]> m) =
    (count_parts f (delete i m) + if f (status p) then 1 else 0)%nat.
Proof.
  unfold count_parts. rewrite <- insert_delete_eq, map_filter_insert.
  simpl. destruct (decide (f (status p) = true)) as [Ht|Hf].
  - rewrite Ht, map_size_insert_None; [lia|].
    apply map_lookup_filter_None. left. apply lookup_delete_eq.
  - rewrite delete_delete_eq. destruct (f (status p)); [contradiction|lia].
Qed.

Lemma count_parts_current (f : PartStatus -> bool) (s : TwinState) (pid : option string) :
  f CREATED = false ->
  count_parts f (parts s) =
    (count_parts f (delete pid (parts s)) + if f (current_status s pid) then 1 else 0)%nat.
Proof.
  intros Hc. unfold current_status.
  destruct (parts s !! pid) as [p|] eqn:Hp.
  - rewrite <- (insert_delete_id (parts s) pid p Hp) at 1.
    rewrite count_parts_insert, delete_delete_eq. reflexivity.
  - rewrite delete_id by exact Hp. rewrite Hc. lia.
Qed.

Lemma transition_sorted_counts (st : PartStatus) (et : EventType) (o : option string)
    (st' : PartStatus) (dp dr : nat) :
  et ∈ valid_flow st -> transition et o = Some (st', dp, dr) ->
  is_sorted st = false /\ is_sorted_nok st = false /\
  dp = (if is_sorted st' then 1 else 0)%nat /\
  dr = (if is_sorted_nok st' then 1 else 0)%nat.
Proof.
  intros Hv Ht.
  destruct st; simpl in Hv;
    repeat match goal with
           | H : _ ∈ [] |- _ => apply not_elem_of_nil in H; contradiction
           | H : _ ∈ [_] |- _ => apply list_elem_of_singleton in H; subst
           end;
    simpl in Ht; try (injection Ht as <- <- <-; repeat split; reflexivity).
  destruct o as [o|]; [|discriminate].
  destruct (String.eqb o "ok"); injection Ht as <- <- <-; repeat split; reflexivity.
Qed.

(** X4: in every state reached from a fresh [TwinState], [total_processed]
    is the number of parts in the map with status SORTED_OK or SORTED_NOK
    and [total_rejected] the number with status SORTED_NOK: each part is
    counted once, when it is sorted. *)
Theorem X4_counters_count_sorted_parts (thr : Q) (es : list Event) (s : TwinState) :
  run (TwinState_new thr) es = Some s ->
  total_processed s = count_parts is_sorted (parts s) /\
  total_rejected s = count_parts is_sorted_nok (parts s).
Proof.
  intros Hrun.
  refine (run_preserves (fun s => total_processed s = count_parts is_sorted (parts s) /\
                                  total_rejected s = count_parts is_sorted_nok (parts s))
            _ (TwinState_new thr) es s (conj eq_refl eq_refl) Hrun).
  intros s0 e s1 [H0p H0r] Hs.
  destruct (handle_event_summary s0 e s1 Hs) as (_ & _ & _ & _ & _ & Hrej & Hacc).
  destruct (handle_event_parts s0 e s1 Hs) as (Hst & _ & Hprej & Hpacc).
  set (pid := data e !! "part_id"%string) in *.
  rewrite (count_parts_current _ s0 pid) in H0p by reflexivity.
  rewrite (count_parts_current _ s0 pid) in H0r by reflexivity.
  destruct (accepted s0 e) eqn:Ha.
  - destruct (Hacc eq_refl) as (st' & dp & dr & Ht & Hp & Hr & _).
    destruct (Hpacc eq_refl) as (st'' & dp' & dr' & Ht' & Hm).
    rewrite Ht in Ht'. injection Ht' as <- <- <-.
    assert (Hv : type e ∈ valid_flow (current_status s0 pid))
      by (unfold accepted in Ha; apply bool_decide_eq_true in Ha; exact Ha).
    destruct (transition_sorted_counts _ _ _ _ _ _ Hv Ht) as (Hs1 & Hs2 & Hdp & Hdr).
    rewrite Hm, !count_parts_insert. simpl.
    rewrite Hs1 in H0p. rewrite Hs2 in H0r.
    split; [rewrite Hp, H0p, Hdp|rewrite Hr, H0r, Hdr]; lia.
  - destruct (Hrej eq_refl) as (_ & Hp & Hr & _).
    rewrite (Hprej eq_refl), !count_parts_insert, Hst.
    split; [rewrite Hp, H0p|rewrite Hr, H0r]; reflexivity.
Qed.

Lemma X4_counters_count_sorted_parts_witness :
  exists s, run (TwinState_new 5) scenario_P3_P4 = Some s /\
    total_processed s = count_parts is_sorted (parts s).
Proof.
  destruct (run (TwinState_new 5) scenario_P3_P4) as [s|] eqn:Hs;
    [|vm_compute in Hs; discriminate].
  exists s. split; [reflexivity|].
  exact (proj1 (X4_counters_count_sorted_parts 5 scenario_P3_P4 s Hs)).
Defined.

(** X5: in every state reached from a fresh [TwinState], every entry of
    the parts map has its key as its [part_id] field, so the [part_id]
    reported by [parts_snapshot] or [get_part] identifies the entry. *)
Theorem X5_part_id_matches_key (thr : Q) (es : list Event) (s : TwinState) :
  run (TwinState_new thr) es = Some s ->
  forall k p, get_part s k = Some p -> part_id p = k.
Proof.
  intros Hrun.
  refine (run_preserves (fun s => forall k p, get_part s k = Some p -> part_id p = k)
            _ (TwinState_new thr) es s _ Hrun).
  - intros s0 e s1 H0 Hs k p Hk. unfold get_part in *.
    destruct (handle_event_parts s0 e s1 Hs) as (_ & Hold & Hprej & Hpacc).
    assert (Hpid : part_id (prelude s0 e).2 = data e !! "part_id"%string).
    { destruct Hold as [Hl|[_ ->]]; [exact (H0 _ _ Hl)|reflexivity]. }
    destruct (accepted s0 e).
    + destruct (Hpacc eq_refl) as (st' & dp & dr & _ & Hm). rewrite Hm in Hk.
      destruct (decide (k = data e !! "part_id"%string)) as [->|Hne].
      * rewrite lookup_insert_eq in Hk. injection Hk as <-. exact Hpid.
      * rewrite lookup_insert_ne in Hk by congruence. exact (H0 _ _ Hk).
    + rewrite (Hprej eq_refl) in Hk.
      destruct (decide (k = data e !! "part_id"%string)) as [->|Hne].
      * rewrite lookup_insert_eq in Hk. injection Hk as <-. exact Hpid.
      * rewrite lookup_insert_ne in Hk by congruence. exact (H0 _ _ Hk).
  - intros k p Hk. unfold get_part in Hk. simpl in Hk.
    rewrite lookup_empty in Hk. discriminate.
Qed.

Lemma X5_part_id_matches_key_witness :
  exists s, run (TwinState_new 5) scenario_P3_P4 = Some s /\
    forall p, get_part s (Some "P4"%string) = Some p -> part_id p = Some "P4"%string.
Proof.
  destruct (run (TwinState_new 5) scenario_P3_P4) as [s|] eqn:Hs;
    [|vm_compute in Hs; discriminate].
  exists s. split; [reflexivity|].
  intros p. apply (X5_part_id_matches_key 5 scenario_P3_P4 s Hs).
Defined.

Lemma run_dom (s0 : TwinState) (es : list Event) (s : TwinState) :
  run s0 es = Some s ->
  dom (parts s) = dom (parts s0) ∪ list_to_set (map (fun e => data e !! "part_id"%string) es).
Proof.
  revert s0. induction es as [|e es IH]; intros s0 Hrun; simpl in Hrun.
  - injection Hrun as <-. simpl. set_solver.
  - destruct (handle_event s0 e) as [s1|] eqn:Hs1; [|discriminate].
    destruct (handle_event_summary s0 e s1 Hs1) as (_ & _ & _ & _ & Hd & _).
    rewrite (IH s1 Hrun), Hd. simpl. set_solver.
Qed.

(** X6: after handling a sequence of events from a fresh [TwinState],
    [get_part] finds a part exactly for the [part_id]s (a missing one
    being [None]) of the events handled, rejected ones included; so
    [parts_in_system] is the number of distinct such ids. *)
Theorem X6_get_part_iff_seen (thr : Q) (es : list Event) (s : TwinState) :
  run (TwinState_new thr) es = Some s ->
  (forall pid, is_Some (get_part s pid) <->
               pid ∈ map (fun e => data e !! "part_id"%string) es) /\
  snap_parts_in_system (snapshot s) =
    size (list_to_set (map (fun e => data e !! "part_id"%string) es) : gset (option string)).
Proof.
  intros Hrun. pose proof (run_dom _ _ _ Hrun) as Hd. simpl in Hd.
  rewrite dom_empty_L, union_empty_l_L in Hd. split.
  - intros pid. unfold get_part. rewrite <- elem_of_dom, Hd.
    rewrite elem_of_list_to_set. reflexivity.
  - unfold snapshot; simpl. rewrite <- size_dom, Hd. reflexivity.
Qed.

Lemma X6_get_part_iff_seen_witness :
  exists s, run (TwinState_new 5) scenario_P3_P4 = Some s /\
    snap_parts_in_system (snapshot s) = 2%nat.
Proof.
  destruct (run (TwinState_new 5) scenario_P3_P4) as [s|] eqn:Hs;
    [|vm_compute in Hs; discriminate].
  exists s. split; [reflexivity|].
  rewrite (proj2 (X6_get_part_iff_seen 5 scenario_P3_P4 s Hs)). vm_compute. reflexivity.
Defined.

(** *** Metrics and [cell_state] over whole runs *)

Lemma run_rejected_le_processed (thr : Q) (es : list Event) (s : TwinState) :
  run (TwinState_new thr) es = Some s -> (total_rejected s <= total_processed s)%nat.
Proof.
  intros Hrun.
  refine (run_preserves (fun s => (total_rejected s <= total_processed s)%nat)
            _ (TwinState_new thr) es s (le_n 0) Hrun).
  intros s0 e s1 H0 Hs.
  destruct (handle_event_summary s0 e s1 Hs) as (_ & _ & _ & _ & _ & Hrej & Hacc).
  destruct (accepted s0 e).
  - destruct (Hacc eq_refl) as (st' & dp & dr & Ht & Hp & Hr & _).
    pose proof (transition_dr_le_dp _ _ _ _ _ Ht). lia.
  - destruct (Hrej eq_refl) as (_ & Hp & Hr & _). lia.
Qed.

Lemma Q_of_nat_le (a b : nat) : (a <= b)%nat -> (Q_of_nat a <= Q_of_nat b)%Q.
Proof. intros H. unfold Q_of_nat. rewrite <- Zle_Qle. lia. Qed.

Lemma Qgt_bool_iff (a b : Q) : Qgt_bool a b = true <-> (b < a)%Q.
Proof.
  unfold Qgt_bool. split.
  - intros H. apply Qnot_le_lt. intros Hle. apply Qle_bool_iff in Hle.
    rewrite Hle in H. discriminate.
  - intros H. destruct (Qle_bool a b) eqn:E; [|reflexivity].
    apply Qle_bool_iff in E. exfalso. apply (Qlt_not_le _ _ H E).
Qed.

(** X7: in every state reached from a fresh [TwinState], the metrics are
    in range: [0 <= reject_rate <= 1] and [throughput >= 0]. *)
Theorem X7_metrics_in_range (thr : Q) (es : list Event) (s : TwinState) :
  run (TwinState_new thr) es = Some s ->
  (0 <= reject_rate (metrics_snapshot s) <= 1)%Q /\
  (0 <= throughput (metrics_snapshot s))%Q.
Proof.
  intros Hrun. pose proof (run_rejected_le_processed thr es s Hrun) as Hle.
  unfold metrics_snapshot; simpl. split.
  - destruct (decide (0 < total_processed s)%nat) as [Hp|_];
      [|split; [apply Qle_refl|apply Qle_bool_iff; reflexivity]].
    assert (Hpos : (0 < Q_of_nat (total_processed s))%Q).
    { unfold Q_of_nat. change 0%Q with (inject_Z 0). rewrite <- Zlt_Qlt. lia. }
    split.
    + apply Qle_shift_div_l; [exact Hpos|]. rewrite Qmult_0_l.
      apply (Q_of_nat_le 0). lia.
    + apply Qle_shift_div_r; [exact Hpos|]. rewrite Qmult_1_l.
      apply Q_of_nat_le, Hle.
  - match goal with |- context [if Qgt_bool ?w 0 then _ else _] =>
      destruct (Qgt_bool w 0) eqn:Hw; [|apply Qle_refl] end.
    apply Qgt_bool_iff in Hw.
    apply Qle_shift_div_l; [exact Hw|]. rewrite Qmult_0_l.
    apply (Q_of_nat_le 0). lia.
Qed.

Lemma X7_metrics_in_range_witness :
  exists s, run (TwinState_new 5) scenario_P3_P4 = Some s /\
    (reject_rate (metrics_snapshot s) <= 1)%Q.
Proof.
  destruct (run (TwinState_new 5) scenario_P3_P4) as [s|] eqn:Hs;
    [|vm_compute in Hs; discriminate].
  exists s. split; [reflexivity|].
  exact (proj2 (proj1 (X7_metrics_in_range 5 scenario_P3_P4 s Hs))).
Defined.

Lemma check_blocked_same_time_cell (s : TwinState) (t : Q) :
  last_event_time s = t ->
  (cell_state (check_blocked s t) = BLOCKED <->
   cell_state s = BLOCKED \/ (~ (t == 0)%Q /\ (blocked_threshold s < 0)%Q)).
Proof.
  intros Ht. unfold check_blocked. rewrite Ht.
  destruct (Qeq_bool t 0) eqn:Hz.
  - apply Qeq_bool_iff in Hz. split; [left; exact H|].
    intros [H|[Hn _]]; [exact H|contradiction].
  - assert (Hnz : ~ (t == 0)%Q) by (intros H; apply Qeq_bool_iff in H; congruence).
    assert (Hgt : Qgt_bool (t - t) (blocked_threshold s) = true <-> (blocked_threshold s < 0)%Q).
    { rewrite Qgt_bool_iff. unfold Qminus. rewrite Qplus_opp_r. reflexivity. }
    destruct (Qgt_bool (t - t) (blocked_threshold s)) eqn:Hb; simpl.
    + split; [intros _; right; split; [exact Hnz|apply Hgt; reflexivity]|reflexivity].
    + split; [intros H; left; exact H|].
      intros [H|[_ H]]; [exact H|apply Hgt in H; discriminate].
Qed.

(** X8: for finite timestamps and threshold (timestamps are rationals
    here: a Python [inf] timestamp gives [inf - inf = nan] in
    [check_blocked], which this model does not cover), the BLOCKED check
    inside [handle_event] (compare C3) fires only on an accepted event, and then exactly when the cell was already BLOCKED
    or the event's timestamp is non-zero and [blocked_threshold] is
    negative; a rejected event always leaves ERROR. In particular, an
    accepted event overwrites an ERROR [cell_state] with BLOCKED when the
    threshold is negative, while [error_flag] stays set. *)
Theorem X8_blocked_iff (s : TwinState) (e : Event) (s' : TwinState) :
  handle_event s e = Some s' ->
  (cell_state s' = BLOCKED <->
   accepted s e = true /\
   (cell_state s = BLOCKED \/ (~ (timestamp e == 0)%Q /\ (blocked_threshold s < 0)%Q))).
Proof.
  intros Hs.
  pose proof (handle_event_cases s e) as Hc.
  pose proof (prelude_facts s e) as Hf.
  unfold accepted.
  destruct (prelude s e) as [s3 part]; simpl in Hc, Hf.
  destruct Hf as (_ & Hst & _ & _ & _ & _ & _ & _ & Ht & Hb & Hcs & _).
  rewrite <- Hst. fold (validate_sequence part (type e)).
  destruct (validate_sequence part (type e)); rewrite Hc in Hs.
  - destruct (transition (type e) (data e !! "outcome"%string))
      as [[[st' dp] dr]|]; [|discriminate].
    injection Hs as <-.
    rewrite check_blocked_same_time_cell by (simpl; exact Ht).
    simpl. rewrite Hcs, Hb.
    assert (Hst3 : (if decide (cell_state s = IDLE) then RUNNING else cell_state s) = BLOCKED
                   <-> cell_state s = BLOCKED).
    { destruct (decide (cell_state s = IDLE)) as [Hi|Hi];
        [rewrite Hi; split; discriminate|reflexivity]. }
    rewrite Hst3. split; [intros H; split; [reflexivity|exact H]|intros [_ H]; exact H].
  - injection Hs as <-. simpl.
    split; [discriminate|intros [H _]; discriminate].
Qed.

Lemma X8_blocked_iff_witness :
  exists s1 s2,
    run (TwinState_new (-1)) [ev SENSOR_READ 1 [("part_id", "P2")]]%string = Some s1 /\
    handle_event s1 (ev PART_ARRIVED 2 [("part_id", "P1")]%string) = Some s2 /\
    cell_state s1 = ERROR /\ cell_state s2 = BLOCKED /\ error_flag s2 = true.
Proof.
  destruct (run (TwinState_new (-1)) [ev SENSOR_READ 1 [("part_id", "P2")]]%string)
    as [s1|] eqn:H1; [|vm_compute in H1; discriminate].
  destruct (handle_event s1 (ev PART_ARRIVED 2 [("part_id", "P1")]%string))
    as [s2|] eqn:H2; [|vm_compute in H1; injection H1 as <-; vm_compute in H2; discriminate].
  exists s1, s2. split; [reflexivity|]. split; [exact H2|].
  assert (Hs1 : cell_state s1 = ERROR)
    by (vm_compute in H1; injection H1 as <-; reflexivity).
  split; [exact Hs1|]. split.
  - apply (X8_blocked_iff s1 _ s2 H2). split.
    + vm_compute in H1; injection H1 as <-. vm_compute. reflexivity.
    + right. vm_compute in H1; injection H1 as <-. simpl. split.
      * intros H. apply Qeq_bool_iff in H. vm_compute in H. discriminate.
      * vm_compute. reflexivity.
  - vm_compute in H1; injection H1 as <-. vm_compute in H2. injection H2 as <-. reflexivity.
Defined.

(** X9: if the first event handled by a fresh [TwinState] has timestamp
    0.0, [system_start_time] stays 0.0, so [observation_window] and
    [throughput] are 0.0 in every later state, however many parts are
    sorted. *)
Theorem X9_zero_start_time_no_throughput (thr : Q) (e : Event) (es : list Event) (s : TwinState) :
  Qeq_bool (timestamp e) 0 = true ->
  run (TwinState_new thr) (e :: es) = Some s ->
  observation_window (metrics_snapshot s) = 0%Q /\ throughput (metrics_snapshot s) = 0%Q.
Proof.
  intros Hz Hrun. simpl in Hrun.
  destruct (handle_event (TwinState_new thr) e) as [s1|] eqn:Hs1; [|discriminate].
  assert (Hinv : cell_state s <> IDLE /\ system_start_time s = timestamp e).
  { refine (run_preserves (fun s => cell_state s <> IDLE /\ system_start_time s = timestamp e)
              _ s1 es s _ Hrun).
    - intros s0 e0 s0' [Hi Ht] Hs. split; [exact (handle_event_not_idle _ _ _ Hs)|].
      destruct (handle_event_summary s0 e0 s0' Hs) as (_ & _ & Hss & _).
      rewrite Hss. destruct (decide (cell_state s0 = IDLE)); [contradiction|exact Ht].
    - split; [exact (handle_event_not_idle _ _ _ Hs1)|].
      destruct (handle_event_summary _ e s1 Hs1) as (_ & _ & Hss & _).
      rewrite Hss. reflexivity. }
  destruct Hinv as [_ Hst].
  unfold metrics_snapshot; simpl. rewrite Hst, Hz. simpl.
  split; reflexivity.
Qed.

Lemma X9_zero_start_time_no_throughput_witness :
  exists s,
    run (TwinState_new 5)
      [ev PART_ARRIVED 0 [("part_id", "P0")];
       ev SENSOR_READ 1 [("part_id", "P0")];
       ev ACTUATOR_TRIGGERED 2 [("part_id", "P0")];
       ev PART_SORTED 3 [("part_id", "P0"); ("outcome", "ok")]]%string = Some s /\
    total_processed s = 1%nat /\ throughput (metrics_snapshot s) = 0%Q.
Proof.
  match goal with |- exists s, run ?s0 (?e :: ?es) = Some s /\ _ =>
    destruct (run s0 (e :: es)) as [s|] eqn:Hs; [|vm_compute in Hs; discriminate];
    exists s; split; [reflexivity|];
    split; [vm_compute in Hs; injection Hs as <-; reflexivity|];
    exact (proj2 (X9_zero_start_time_no_throughput 5 e es s ltac:(reflexivity) Hs))
  end.
Defined.

(** *** The twin behind the bus *)

(** The effect of a bus callback on the twin [self]: its own
    [_handle_event] applies [TwinState.handle_event] to its state; any other
    callback leaves it alone. [None] is the twin after an exception escaped
    its handler (the dispatch loop halts; nothing further is applied). *)
Definition twin_invoke (self : nat) (cb : SubscriberCallback) (e : Event)
    (w : option DigitalTwin) : option DigitalTwin :=
  match cb with
  | DigitalTwin_handle_event id =>
      if Nat.eq_dec id self then
        match w with Some tw => _handle_event tw e | None => None end
      else w
  | OtherCallback _ => w
  end.

Lemma replay_others self (l : list SubscriberCallback) e w :
  DigitalTwin_handle_event self ∉ l ->
  replay (twin_invoke self) (map (fun cb => (cb, e)) l) w = w.
Proof.
  revert w. induction l as [|cb l IH] using rev_ind; intros w Hn; [reflexivity|].
  rewrite map_app, replay_app. simpl.
  rewrite IH by (intros H; apply Hn; apply elem_of_app; left; exact H).
  destruct cb as [id|tag]; simpl; [|reflexivity].
  destruct (Nat.eq_dec id self) as [->|]; [|reflexivity].
  exfalso. apply Hn. apply elem_of_app. right. apply list_elem_of_singleton. reflexivity.
Qed.

Lemma replay_twin_deliveries self others (es : list Event) (tw : DigitalTwin) :
  DigitalTwin_handle_event self ∉ others ->
  option_map _state
    (replay (twin_invoke self) (deliveries (DigitalTwin_handle_event self :: others) es) (Some tw))
  = run (_state tw) es.
Proof.
  intros Hn. revert tw. induction es as [|e es IH]; intros tw; [reflexivity|].
  unfold deliveries. simpl. fold (deliveries (DigitalTwin_handle_event self :: others) es).
  rewrite replay_app.
  change (replay (twin_invoke self) ((DigitalTwin_handle_event self, e) :: map (fun cb => (cb, e)) others) (Some tw))
    with (replay (twin_invoke self) (map (fun cb => (cb, e)) others)
            (twin_invoke self (DigitalTwin_handle_event self) e (Some tw))).
  rewrite replay_others by exact Hn. simpl.
  destruct (Nat.eq_dec self self) as [_|]; [|contradiction].
  unfold _handle_event.
  destruct (handle_event (_state tw) e) as [s'|] eqn:Hs.
  - exact (IH {| _bus := _bus tw; _state := s'; _self := _self tw |}).
  - clear IH. induction es as [|e' es IH']; [reflexivity|].
    unfold deliveries in *. simpl. rewrite replay_app.
    change (replay (twin_invoke self) ((DigitalTwin_handle_event self, e') :: map (fun cb => (cb, e')) others) None)
      with (replay (twin_invoke self) (map (fun cb => (cb, e')) others)
              (twin_invoke self (DigitalTwin_handle_event self) e' None)).
    rewrite replay_others by exact Hn. simpl.
    destruct (Nat.eq_dec self self); [exact IH'|contradiction].
Qed.

Lemma twin_on_bus_prefix
    (others : list SubscriberCallback) (sched : list BusAction) (tw : DigitalTwin) (bus : EventBus) :
  DigitalTwin_handle_event 0 ∉ others ->
  DigitalTwin_init 0 EventBus_new [] = Some (tw, bus) ->
  let '(b', (w', _)) :=
    bus_exec (twin_invoke 0) (fold_left subscribe others bus, (Some tw, [])) sched in
  exists k,
    option_map _state w' = run TwinState_default (firstn k (published sched)) /\
    _queue b' = skipn k (published sched).
Proof.
  intros Hn Hinit. injection Hinit as <- <-.
  rewrite subscribe_all. simpl.
  pose proof (bus_exec_invariant (twin_invoke 0) sched
                {| _queue := []; _subscribers := DigitalTwin_handle_event 0 :: others |}
                (Some {| _bus := subscribe EventBus_new (DigitalTwin_handle_event 0);
                         _state := TwinState_default; _self := 0 |}) []) as H.
  simpl in H.
  destruct (bus_exec (twin_invoke 0) _ sched) as [b' [w' log]].
  destruct H as (k & _ & Hq & _ & Hw).
  exists k. split; [|exact Hq].
  rewrite Hw, replay_twin_deliveries by exact Hn. reflexivity.
Qed.

(** X10: a twin constructed on a fresh bus, followed by any other
    subscribers that are not its handler, for every interleaving of
    producers' [publish] calls and dispatch-loop iterations: the twin's
    state is always that of [TwinState.handle_event] applied, from the
    default [TwinState], to the first [k] published events in publish
    order, where the remaining published events wait in the queue. *)
Theorem X10_twin_state_is_run_of_published_prefix
    (others : list SubscriberCallback) (sched : list BusAction) (tw : DigitalTwin) (bus : EventBus) :
  DigitalTwin_handle_event 0 ∉ others ->
  DigitalTwin_init 0 EventBus_new [] = Some (tw, bus) ->
  let '(b', (w', _)) :=
    bus_exec (twin_invoke 0) (fold_left subscribe others bus, (Some tw, [])) sched in
  exists k,
    option_map _state w' = run TwinState_default (firstn k (published sched)) /\
    _queue b' = skipn k (published sched).
Proof. exact (twin_on_bus_prefix others sched tw bus). Qed.

Lemma X10_twin_state_is_run_of_published_prefix_witness :
  exists tw bus, DigitalTwin_init 0 EventBus_new [] = Some (tw, bus) /\
    (DigitalTwin_handle_event 0 ∉ [OtherCallback 7]) /\
    (let sched := [Publish (ev PART_ARRIVED 1 [("part_id", "P0")]%string); RunIteration] in
    let '(b', (w', _)) :=
      bus_exec (twin_invoke 0) (fold_left subscribe [OtherCallback 7] bus, (Some tw, [])) sched in
    exists k,
      option_map _state w' = run TwinState_default (firstn k (published sched)) /\
      _queue b' = skipn k (published sched)).
Proof.
  assert (Hn : DigitalTwin_handle_event 0 ∉ [OtherCallback 7])
    by (intros H; apply list_elem_of_singleton in H; discriminate).
  destruct (DigitalTwin_init 0 EventBus_new []) as [[tw bus]|] eqn:Hi; [|discriminate].
  exists tw, bus. split; [reflexivity|]. split; [exact Hn|].
  exact (X10_twin_state_is_run_of_published_prefix [OtherCallback 7]
           [Publish (ev PART_ARRIVED 1 [("part_id", "P0")]%string); RunIteration]
           tw bus Hn Hi).
Defined.

(** *** physical_sim/cell_sim.py *)

(** The simulator's producer side. The coroutines of [SortingCellSimulator]
    only suspend at [await asyncio.sleep(...)] ([await bus.publish] puts on
    an unbounded queue and returns without suspending), so each resumption of
    [run] or of a [_process_part] task runs atomically up to its next sleep.
    A schedule is the sequence of these resumptions chosen by the event
    loop; the random delays only decide which schedule happens, and
    [random.random() < self.ok_probability] is the boolean the schedule
    supplies when a task draws it. A [_process_part] task is its part id,
    its drawn [is_ok] and the number of sleeps it has completed (3: the
    coroutine has returned). Interarrival and delay parameters, and
    logging, do not reach the events and are dropped. *)
Record SimTask := mkSimTask {
  task_part_id : string;
  task_is_ok : bool;
  task_stage : nat
}.

Record SortingCellSimulator := mkSortingCellSimulator {
  _part_counter : nat;
  sim_tasks : list SimTask
}.

(** [__init__]: [self._part_counter = 0]; no task is running yet. *)
Definition SortingCellSimulator_new : SortingCellSimulator :=
  {| _part_counter := 0; sim_tasks := [] |}.

Inductive SimAction :=
  (** [run] wakes from its interarrival sleep at loop time [t]. *)
  | ArrivalStep (t : Q)
  (** task [i] wakes from its current sleep at loop time [t]; [draw_ok] is
      [random.random() < self.ok_probability] if the task draws it. *)
  | PartStep (i : nat) (t : Q) (draw_ok : bool).

(** One resumption, with the events it publishes. *)
Definition sim_step (sim : SortingCellSimulator) (a : SimAction)
    : SortingCellSimulator * list Event :=
  match a with
  | ArrivalStep t =>
      let part_id := ("P" +:+ pretty (_part_counter sim))%string in
      ({| _part_counter := S (_part_counter sim);
          sim_tasks := sim_tasks sim ++ [mkSimTask part_id false 0] |},
       [{| type := PART_ARRIVED; timestamp := t;
           data := list_to_map [("part_id", part_id)]%string |}])
  | PartStep i t draw_ok =>
      match sim_tasks sim !! i with
      | None => (sim, [])
      | Some tk =>
          let part_id := task_part_id tk in
          let upd is_ok stage :=
            {| _part_counter := _part_counter sim;
               sim_tasks := <[i := mkSimTask part_id is_ok stage]> (sim_tasks sim) |} in
          match task_stage tk with
          | 0 =>
              let is_ok := draw_ok in
              let sensor_result := (if is_ok then "ok" else "nok")%string in
              (upd is_ok 1,
               [{| type := SENSOR_READ; timestamp := t;
                   data := list_to_map [("part_id", part_id); ("result", sensor_result)]%string |}])
          | 1 =>
              let is_ok := task_is_ok tk in
              let decision := (if is_ok then "ok_bin" else "reject_bin")%string in
              (upd is_ok 2,
               [{| type := ACTUATOR_TRIGGERED; timestamp := t;
                   data := list_to_map [("part_id", part_id); ("decision", decision)]%string |}])
          | 2 =>
              let is_ok := task_is_ok tk in
              let outcome := (if is_ok then "ok" else "nok")%string in
              (upd is_ok 3,
               [{| type := PART_SORTED; timestamp := t;
                   data := list_to_map [("part_id", part_id); ("outcome", outcome)]%string |}])
          | _ => (sim, [])
          end
      end
  end.

(** The simulator after a schedule, with everything it published, in
    publish order. *)
Definition sim_exec (sched : list SimAction) : SortingCellSimulator * list Event :=
  fold_left (fun acc a => let '(sim, out) := acc in
                          let '(sim', evs) := sim_step sim a in (sim', out ++ evs))
            sched (SortingCellSimulator_new, []).

(** The payloads [_process_part] publishes for a part, in order, given the
    value of its [is_ok] draw. *)
Definition part_trace (part_id : string) (is_ok : bool)
    : list (EventType * gmap string string) :=
  [(PART_ARRIVED, list_to_map [("part_id", part_id)]%string);
   (SENSOR_READ, list_to_map [("part_id", part_id);
                              ("result", if is_ok then "ok" else "nok")]%string);
   (ACTUATOR_TRIGGERED, list_to_map [("part_id", part_id);
                                     ("decision", if is_ok then "ok_bin" else "reject_bin")]%string);
   (PART_SORTED, list_to_map [("part_id", part_id);
                              ("outcome", if is_ok then "ok" else "nok")]%string)].

Definition sim_part_id (n : nat) : string := ("P" +:+ pretty n)%string.

(** What every reachable simulator state satisfies, with what it has
    published. *)
Record sim_inv (sim : SortingCellSimulator) (es : list Event) : Prop := {
  sim_inv_fresh : forall m, (_part_counter sim <= m)%nat ->
    events_of (Some (sim_part_id m)) es = [];
  sim_inv_ids : forall i tk, sim_tasks sim !! i = Some tk ->
    exists m, (m < _part_counter sim)%nat /\ task_part_id tk = sim_part_id m;
  sim_inv_nodup : forall i j tki tkj, sim_tasks sim !! i = Some tki ->
    sim_tasks sim !! j = Some tkj -> task_part_id tki = task_part_id tkj -> i = j;
  sim_inv_trace : forall i tk, sim_tasks sim !! i = Some tk ->
    (task_stage tk <= 3)%nat /\
    map (fun e => (type e, data e)) (events_of (Some (task_part_id tk)) es) =
      take (S (task_stage tk)) (part_trace (task_part_id tk) (task_is_ok tk));
  sim_inv_owner : forall e, e ∈ es -> exists i tk, sim_tasks sim !! i = Some tk /\
    data e !! "part_id"%string = Some (task_part_id tk)
}.

Lemma sim_part_id_inj (a b : nat) : sim_part_id a = sim_part_id b -> a = b.
Proof.
  unfold sim_part_id. cbn [String.append]. intros H. injection H as H.
  exact (pretty_nat_inj a b H).
Qed.

Lemma list_to_map_lookup_1 (k v : string) :
  (list_to_map [(k, v)] : gmap string string) !! k = Some v.
Proof. rewrite list_to_map_cons. apply lookup_insert_eq. Qed.

Lemma list_to_map_lookup_2 (k1 v1 k2 v2 : string) :
  (list_to_map [(k1, v1); (k2, v2)] : gmap string string) !! k1 = Some v1.
Proof. rewrite list_to_map_cons. apply lookup_insert_eq. Qed.

Lemma list_to_map_lookup_2' (k1 v1 k2 v2 : string) :
  k1 <> k2 -> (list_to_map [(k1, v1); (k2, v2)] : gmap string string) !! k2 = Some v2.
Proof.
  intros Hne. rewrite !list_to_map_cons, lookup_insert_ne by congruence.
  apply lookup_insert_eq.
Qed.

(** Lookups in a payload literal. *)
Ltac kv_lookup :=
  repeat first [ rewrite list_to_map_lookup_2' by discriminate
               | rewrite list_to_map_lookup_2
               | rewrite lookup_insert_eq
               | rewrite lookup_insert_ne by discriminate ].

Lemma sim_inv_new : sim_inv SortingCellSimulator_new [].
Proof.
  split; simpl.
  - intros. reflexivity.
  - intros i tk H. rewrite lookup_nil in H. discriminate.
  - intros i j tki tkj H. rewrite lookup_nil in H. discriminate.
  - intros i tk H. rewrite lookup_nil in H. discriminate.
  - intros e H. apply not_elem_of_nil in H. contradiction.
Qed.

Lemma events_of_snoc_other pid (es : list Event) (e : Event) :
  data e !! "part_id"%string <> pid -> events_of pid (es ++ [e]) = events_of pid es.
Proof.
  intros Hne. rewrite events_of_snoc. destruct (decide _); [contradiction|].
  apply app_nil_r.
Qed.

Lemma events_of_snoc_same pid (es : list Event) (e : Event) :
  data e !! "part_id"%string = pid -> events_of pid (es ++ [e]) = events_of pid es ++ [e].
Proof.
  intros Heq. rewrite events_of_snoc. destruct (decide _); [reflexivity|contradiction].
Qed.

(** [run] wakes up: a fresh part id, a new task at stage 0. *)
Lemma sim_inv_arrival (sim : SortingCellSimulator) (es : list Event) (t : Q) :
  sim_inv sim es ->
  let '(sim', evs) := sim_step sim (ArrivalStep t) in sim_inv sim' (es ++ evs).
Proof.
  intros [Hfresh Hids Hnd Htr Hown]. simpl.
  set (c := _part_counter sim).
  set (tk0 := mkSimTask (sim_part_id c) false 0).
  set (e := {| type := PART_ARRIVED; timestamp := t;
               data := list_to_map [("part_id", sim_part_id c)]%string |}).
  change (sim_inv {| _part_counter := S c; sim_tasks := sim_tasks sim ++ [tk0] |} (es ++ [e])).
  assert (He : data e !! "part_id"%string = Some (sim_part_id c))
    by apply list_to_map_lookup_1.
  (* the part ids of the old tasks are not the new one *)
  assert (Hold : forall i tk, sim_tasks sim !! i = Some tk -> task_part_id tk <> sim_part_id c).
  { intros i tk H Heq. destruct (Hids i tk H) as (m & Hm & Hid).
    rewrite Hid in Heq. apply sim_part_id_inj in Heq. unfold c in Heq. lia. }
  split; simpl.
  - intros m Hm. rewrite events_of_snoc_other.
    + apply Hfresh. unfold c. lia.
    + rewrite He. intros Heq. apply (inj Some) in Heq. apply sim_part_id_inj in Heq.
      unfold c in Heq. lia.
  - intros i tk H. apply lookup_snoc_Some in H as [[_ H]|[_ <-]].
    + destruct (Hids i tk H) as (m & Hm & Hid). exists m. split; [lia|exact Hid].
    + exists c. split; [lia|reflexivity].
  - intros i j tki tkj Hi Hj Heq.
    apply lookup_snoc_Some in Hi as [[Hil Hi]|[Hil <-]];
    apply lookup_snoc_Some in Hj as [[Hjl Hj]|[Hjl <-]].
    + exact (Hnd i j tki tkj Hi Hj Heq).
    + exfalso. exact (Hold i tki Hi Heq).
    + exfalso. exact (Hold j tkj Hj (eq_sym Heq)).
    + congruence.
  - intros i tk H. apply lookup_snoc_Some in H as [[_ H]|[_ <-]].
    + rewrite events_of_snoc_other; [exact (Htr i tk H)|].
      rewrite He. intros Heq. apply (inj Some) in Heq. exact (Hold i tk H (eq_sym Heq)).
    + split; [unfold tk0; simpl; lia|]. simpl.
      rewrite events_of_snoc_same by exact He.
      rewrite (Hfresh c (le_n _)). reflexivity.
  - intros e' H. apply elem_of_app in H as [H|H].
    + destruct (Hown e' H) as (i & tk & Hi & Hd).
      exists i, tk. split; [|exact Hd].
      rewrite lookup_app_l by (eapply lookup_lt_Some; exact Hi). exact Hi.
    + apply list_elem_of_singleton in H. subst e'.
      exists (length (sim_tasks sim)), tk0. split; [|exact He].
      rewrite lookup_app_r, Nat.sub_diag by lia. reflexivity.
Qed.

Lemma list_lookup_insert_Some' {A} (l : list A) i j (x y x' : A) :
  l !! i = Some x -> <[i := x']> l !! j = Some y ->
  (j = i /\ y = x') \/ (j <> i /\ l !! j = Some y).
Proof.
  intros Hi Hj. rewrite list_lookup_insert in Hj.
  destruct (decide _) as [[-> _]|Hn].
  - left. split; congruence.
  - right. split; [|exact Hj]. intros ->. apply Hn. split; [reflexivity|].
    eapply lookup_lt_Some; exact Hi.
Qed.

(** A task wakes up and publishes the next event of its part. *)
Lemma sim_inv_advance (sim : SortingCellSimulator) (es : list Event) i
    (tk tk' : SimTask) (e : Event) :
  sim_inv sim es ->
  sim_tasks sim !! i = Some tk ->
  task_part_id tk' = task_part_id tk ->
  data e !! "part_id"%string = Some (task_part_id tk) ->
  (task_stage tk' <= 3)%nat ->
  map (fun e => (type e, data e)) (events_of (Some (task_part_id tk)) es) ++ [(type e, data e)] =
    take (S (task_stage tk')) (part_trace (task_part_id tk) (task_is_ok tk')) ->
  sim_inv {| _part_counter := _part_counter sim;
             sim_tasks := <[i := tk']> (sim_tasks sim) |} (es ++ [e]).
Proof.
  intros [Hfresh Hids Hnd Htr Hown] Hi Hid' He Hst Htrace.
  (* other tasks have other part ids *)
  assert (Hoth : forall j tkj, j <> i -> sim_tasks sim !! j = Some tkj ->
                 task_part_id tkj <> task_part_id tk).
  { intros j tkj Hji Hj Heq. exact (Hji (Hnd j i tkj tk Hj Hi Heq)). }
  split; simpl.
  - intros m Hm. rewrite events_of_snoc_other; [exact (Hfresh m Hm)|].
    rewrite He. intros Heq. apply (inj Some) in Heq.
    destruct (Hids i tk Hi) as (m' & Hm' & Hid). rewrite Hid in Heq.
    apply sim_part_id_inj in Heq. lia.
  - intros j x Hj. apply (list_lookup_insert_Some' _ i j tk _ _ Hi) in Hj as [[-> ->]|[_ Hj]];
      [|exact (Hids j x Hj)].
    rewrite Hid'. exact (Hids i tk Hi).
  - intros j k x y Hj Hk Heq.
    apply (list_lookup_insert_Some' _ i j tk _ _ Hi) in Hj as [[-> ->]|[Hji Hj]];
    apply (list_lookup_insert_Some' _ i k tk _ _ Hi) in Hk as [[-> ->]|[Hki Hk]].
    + reflexivity.
    + exfalso. rewrite Hid' in Heq. exact (Hoth k y Hki Hk (eq_sym Heq)).
    + exfalso. rewrite Hid' in Heq. exact (Hoth j x Hji Hj Heq).
    + exact (Hnd j k x y Hj Hk Heq).
  - intros j x Hj. apply (list_lookup_insert_Some' _ i j tk _ _ Hi) in Hj as [[-> ->]|[Hji Hj]].
    + split; [exact Hst|]. rewrite Hid', events_of_snoc_same by exact He.
      rewrite map_app. exact Htrace.
    + rewrite events_of_snoc_other; [exact (Htr j x Hj)|].
      rewrite He. intros Heq. apply (inj Some) in Heq. exact (Hoth j x Hji Hj (eq_sym Heq)).
  - intros e' H. apply elem_of_app in H as [H|H].
    + destruct (Hown e' H) as (j & x & Hj & Hd).
      destruct (decide (j = i)) as [->|Hji].
      * exists i, tk'. split; [apply list_lookup_insert_eq; eapply lookup_lt_Some; exact Hi|].
        rewrite Hid'. congruence.
      * exists j, x. split; [rewrite list_lookup_insert_ne by congruence; exact Hj|exact Hd].
    + apply list_elem_of_singleton in H. subst e'.
      exists i, tk'. split; [apply list_lookup_insert_eq; eapply lookup_lt_Some; exact Hi|].
      rewrite Hid'. exact He.
Qed.

Lemma sim_inv_step (sim : SortingCellSimulator) (es : list Event) (a : SimAction) :
  sim_inv sim es ->
  let '(sim', evs) := sim_step sim a in sim_inv sim' (es ++ evs).
Proof.
  intros H. destruct a as [t|i t d]; [exact (sim_inv_arrival sim es t H)|].
  simpl. destruct (sim_tasks sim !! i) as [tk|] eqn:Hi; [|rewrite app_nil_r; exact H].
  pose proof (proj2 (sim_inv_trace sim es H i tk Hi)) as Htr.
  destruct (task_stage tk) as [|[|[|n]]] eqn:Hs; [..|rewrite app_nil_r; exact H];
    (eapply sim_inv_advance; [exact H|exact Hi|reflexivity|apply list_to_map_lookup_2|simpl; lia|]);
    rewrite Htr; simpl.
  - destruct d; reflexivity.
  - destruct (task_is_ok tk); reflexivity.
  - destruct (task_is_ok tk); reflexivity.
Qed.

Lemma sim_exec_inv (sched : list SimAction) :
  let '(sim, es) := sim_exec sched in sim_inv sim es.
Proof.
  unfold sim_exec.
  assert (Hgen : forall sim es, sim_inv sim es ->
    let '(sim', es') := fold_left (fun acc a => let '(sim, out) := acc in
                          let '(sim', evs) := sim_step sim a in (sim', out ++ evs)) sched (sim, es)
    in sim_inv sim' es').
  { induction sched as [|a sched IH]; intros sim es H; [exact H|]. simpl.
    pose proof (sim_inv_step sim es a H) as Ha.
    destruct (sim_step sim a) as [sim' evs]. exact (IH sim' (es ++ evs) Ha). }
  exact (Hgen _ _ sim_inv_new).
Qed.

(** The part of a published event is one of the tasks, and its events so
    far are the start of that part's trace. *)
Lemma sim_inv_event (sim : SortingCellSimulator) (es : list Event) (e : Event) :
  sim_inv sim es -> e ∈ es ->
  exists i tk, sim_tasks sim !! i = Some tk /\
    data e !! "part_id"%string = Some (task_part_id tk) /\
    (type e, data e) ∈ part_trace (task_part_id tk) (task_is_ok tk).
Proof.
  intros H He. destruct (sim_inv_owner sim es H e He) as (i & tk & Hi & Hd).
  exists i, tk. split; [exact Hi|]. split; [exact Hd|].
  destruct (sim_inv_trace sim es H i tk Hi) as [_ Htr].
  eapply elem_of_prefix; [|apply (prefix_take _ (S (task_stage tk)))].
  rewrite <- Htr. apply list_elem_of_In, (in_map (fun e => (type e, data e))), list_elem_of_In.
  unfold events_of. apply list_elem_of_filter. split; [exact Hd|exact He].
Qed.

Lemma sim_inv_respects (sim : SortingCellSimulator) (es : list Event) :
  sim_inv sim es -> respects_canonical_order es.
Proof.
  intros H. apply respects_canonical_order_check. apply Forall_forall.
  intros pid Hpid. apply list_elem_of_In, in_map_iff in Hpid as (e & <- & He).
  apply list_elem_of_In in He.
  destruct (sim_inv_owner sim es H e He) as (i & tk & Hi & ->).
  destruct (sim_inv_trace sim es H i tk Hi) as [_ Htr].
  replace (map type (events_of (Some (task_part_id tk)) es))
    with (map fst (map (fun e => (type e, data e)) (events_of (Some (task_part_id tk)) es)))
    by (rewrite map_map; reflexivity).
  rewrite Htr, <- firstn_map.
  replace (map fst (part_trace (task_part_id tk) (task_is_ok tk))) with canonical_order
    by reflexivity.
  apply prefix_take.
Qed.

Lemma sim_inv_well_formed (sim : SortingCellSimulator) (es : list Event) :
  sim_inv sim es -> Forall well_formed_outcome es.
Proof.
  intros H. apply Forall_forall. intros e He Hty.
  destruct (sim_inv_event sim es e H He) as (i & tk & _ & _ & Hin).
  unfold part_trace in Hin. rewrite Hty in Hin.
  repeat (apply elem_of_cons in Hin as [Hin|Hin]; [try discriminate Hin|]).
  - injection Hin as Hd. rewrite Hd. kv_lookup.
    destruct (task_is_ok tk); [left|right]; reflexivity.
  - apply not_elem_of_nil in Hin. contradiction.
Qed.

Lemma respects_app_l (l1 l2 : list Event) :
  respects_canonical_order (l1 ++ l2) -> respects_canonical_order l1.
Proof.
  intros H pid. specialize (H pid). unfold events_of in H.
  rewrite filter_app, map_app in H. eapply prefix_app_l; exact H.
Qed.

Lemma canonical_run_no_error (thr : Q) (es : list Event) :
  respects_canonical_order es -> Forall well_formed_outcome es ->
  exists s, run (TwinState_new thr) es = Some s /\ error_flag s = false /\
    total_processed s = count_sorted es /\ total_rejected s = count_sorted_nok es.
Proof.
  intros Hr0 Hw0.
  destruct (canonical_run thr es Hr0 Hw0) as (s & Hs & _ & Hp & Hn).
  exists s. split; [exact Hs|]. split; [|split; assumption]. clear Hp Hn.
  revert s Hs. induction es as [|e es IH] using rev_ind; intros s0 Hs0.
  - injection Hs0 as <-. reflexivity.
  - pose proof Hw0 as Hw. apply Forall_app in Hw as [Hw He]. apply Forall_cons in He as [He _].
    pose proof (respects_snoc _ _ Hr0) as Hr.
    destruct (canonical_run thr es Hr Hw) as (s & Hs & Hst & _).
    specialize (IH Hr Hw s Hs).
    assert (Hv : type e ∈ valid_flow (current_status s (data e !! "part_id"%string))).
    { rewrite Hst. apply canonical_next_valid.
      specialize (Hr0 (data e !! "part_id"%string)).
      rewrite events_of_snoc in Hr0.
      destruct (decide _) as [_|Hne]; [exact Hr0|contradiction]. }
    destruct (transition_defined e He) as (st' & dp & dr & Ht).
    destruct (handle_event_valid s e st' dp dr Hv Ht) as (s'' & H'' & _ & _ & _ & _ & Herr).
    rewrite run_app, Hs, H'' in Hs0. injection Hs0 as <-. rewrite Herr. exact IH.
Qed.

Lemma sim_exec_canonical (sched : list SimAction) :
  respects_canonical_order (sim_exec sched).2 /\ Forall well_formed_outcome (sim_exec sched).2.
Proof.
  pose proof (sim_exec_inv sched) as H. destruct (sim_exec sched) as [sim es]. simpl.
  split; [exact (sim_inv_respects sim es H)|exact (sim_inv_well_formed sim es H)].
Qed.

(** X11: whatever the event loop's scheduling of [run] and the
    [_process_part] tasks, and whatever the sensor draws, the events the
    simulator publishes, handled in publish order by a fresh [TwinState]
    (any threshold), never raise and never set [error_flag]; afterwards
    [total_processed] is the number of PART_SORTED events published and
    [total_rejected] the number of those with outcome ["nok"]. *)
Theorem X11_simulator_never_errors_twin (thr : Q) (sched : list SimAction) :
  exists s, run (TwinState_new thr) (sim_exec sched).2 = Some s /\
    error_flag s = false /\
    total_processed s = count_sorted (sim_exec sched).2 /\
    total_rejected s = count_sorted_nok (sim_exec sched).2.
Proof.
  destruct (sim_exec_canonical sched) as [Hr Hw].
  exact (canonical_run_no_error thr _ Hr Hw).
Qed.

(** X12: for one part, the simulator's ACTUATOR_TRIGGERED decision and
    PART_SORTED outcome agree with its SENSOR_READ result: ["ok"] gives
    decision ["ok_bin"] and outcome ["ok"], ["nok"] gives ["reject_bin"]
    and ["nok"]. *)
Theorem X12_simulator_decision_follows_sensor (sched : list SimAction) (e1 e2 : Event) :
  let es := (sim_exec sched).2 in
  e1 ∈ es -> e2 ∈ es ->
  data e1 !! "part_id"%string = data e2 !! "part_id"%string ->
  type e1 = SENSOR_READ ->
  (data e1 !! "result"%string = Some "ok"%string \/ data e1 !! "result"%string = Some "nok"%string) /\
  (type e2 = ACTUATOR_TRIGGERED ->
     data e2 !! "decision"%string =
       Some (if decide (data e1 !! "result"%string = Some "ok"%string)
             then "ok_bin" else "reject_bin")%string) /\
  (type e2 = PART_SORTED -> data e2 !! "outcome"%string = data e1 !! "result"%string).
Proof.
  pose proof (sim_exec_inv sched) as H. destruct (sim_exec sched) as [sim es]. simpl.
  intros H1 H2 Hpid Ht1.
  destruct (sim_inv_event sim es e1 H H1) as (i1 & tk1 & Hi1 & Hd1 & Hin1).
  destruct (sim_inv_event sim es e2 H H2) as (i2 & tk2 & Hi2 & Hd2 & Hin2).
  assert (i1 = i2) as <-.
  { apply (sim_inv_nodup sim es H i1 i2 tk1 tk2 Hi1 Hi2). congruence. }
  rewrite Hi1 in Hi2. injection Hi2 as <-. clear Hpid Hd1 Hd2 H1 H2.
  unfold part_trace in Hin1, Hin2. rewrite Ht1 in Hin1.
  assert (Hr : data e1 !! "result"%string =
               Some (if task_is_ok tk1 then "ok" else "nok")%string).
  { repeat (apply elem_of_cons in Hin1 as [Hin1|Hin1]; [try discriminate Hin1|]).
    - injection Hin1 as ->. kv_lookup. reflexivity.
    - apply not_elem_of_nil in Hin1. contradiction. }
  rewrite Hr. split; [destruct (task_is_ok tk1); [left|right]; reflexivity|].
  split; intros Ht2; rewrite Ht2 in Hin2;
    (repeat (apply elem_of_cons in Hin2 as [Hin2|Hin2]; [try discriminate Hin2|]);
     [injection Hin2 as ->; kv_lookup;
      destruct (task_is_ok tk1); reflexivity
     |apply not_elem_of_nil in Hin2; contradiction]).
Qed.

Definition sim_schedule_P0 : list SimAction :=
  [ArrivalStep 1; PartStep 0 2 false; PartStep 0 3 true; PartStep 0 4 true].

Lemma sim_schedule_P0_events :
  (sim_exec sim_schedule_P0).2 =
    [ev PART_ARRIVED 1 [("part_id", "P0")];
     ev SENSOR_READ 2 [("part_id", "P0"); ("result", "nok")];
     ev ACTUATOR_TRIGGERED 3 [("part_id", "P0"); ("decision", "reject_bin")];
     ev PART_SORTED 4 [("part_id", "P0"); ("outcome", "nok")]]%string.
Proof. reflexivity. Qed.

Lemma X12_simulator_decision_follows_sensor_witness :
  let e1 := ev SENSOR_READ 2 [("part_id", "P0"); ("result", "nok")]%string in
  let e2 := ev PART_SORTED 4 [("part_id", "P0"); ("outcome", "nok")]%string in
  let es := (sim_exec sim_schedule_P0).2 in
  e1 ∈ es /\ e2 ∈ es /\
  data e1 !! "part_id"%string = data e2 !! "part_id"%string /\
  type e1 = SENSOR_READ /\
  data e2 !! "outcome"%string = data e1 !! "result"%string.
Proof.
  intros e1 e2 es.
  assert (H1 : e1 ∈ es).
  { unfold es. rewrite sim_schedule_P0_events.
    apply elem_of_cons. right. apply elem_of_cons. left. reflexivity. }
  assert (H2 : e2 ∈ es).
  { unfold es. rewrite sim_schedule_P0_events.
    do 3 (apply elem_of_cons; right). apply elem_of_cons. left. reflexivity. }
  assert (Hp : data e1 !! "part_id"%string = data e2 !! "part_id"%string) by reflexivity.
  split; [exact H1|]. split; [exact H2|]. split; [exact Hp|]. split; [reflexivity|].
  exact (proj2 (proj2 (X12_simulator_decision_follows_sensor sim_schedule_P0 e1 e2 H1 H2 Hp eq_refl))
           eq_refl).
Defined.

(** X13: the twin subscribed on a fresh bus (with any other subscribers
    that are not its handler), fed by the simulator: for every interleaving
    of the simulator's publishes with the dispatch loop's iterations, the
    twin has handled some prefix of the simulator's events, the rest wait
    in the queue, its handler never raised, [error_flag] is never set, and
    its counters count the PART_SORTED events (and those with outcome
    ["nok"]) of the handled prefix. *)
Theorem X13_twin_fed_by_simulator
    (others : list SubscriberCallback) (sched : list SimAction) (bsched : list BusAction)
    (tw : DigitalTwin) (bus : EventBus) :
  DigitalTwin_handle_event 0 ∉ others ->
  DigitalTwin_init 0 EventBus_new [] = Some (tw, bus) ->
  published bsched = (sim_exec sched).2 ->
  let es := (sim_exec sched).2 in
  let '(b', (w', _)) :=
    bus_exec (twin_invoke 0) (fold_left subscribe others bus, (Some tw, [])) bsched in
  exists k s,
    option_map _state w' = Some s /\ _queue b' = drop k es /\
    error_flag s = false /\
    total_processed s = count_sorted (take k es) /\
    total_rejected s = count_sorted_nok (take k es).
Proof.
  intros Hn Hinit Hpub es.
  pose proof (twin_on_bus_prefix others bsched tw bus Hn Hinit) as H.
  destruct (bus_exec (twin_invoke 0) _ bsched) as [b' [w' log]].
  destruct H as (k & Hw & Hq). rewrite Hpub in Hw, Hq. fold es in Hw, Hq.
  destruct (sim_exec_canonical sched) as [Hr Hwf]. fold es in Hr, Hwf.
  assert (Hr' : respects_canonical_order (take k es)).
  { apply (respects_app_l _ (drop k es)). rewrite take_drop. exact Hr. }
  destruct (canonical_run_no_error 5%Q (take k es) Hr' (Forall_take _ k _ Hwf))
    as (s & Hs & Herr & Hp & Hr'').
  exists k, s. split; [rewrite Hw; exact Hs|]. split; [exact Hq|]. auto.
Qed.

Lemma X13_twin_fed_by_simulator_witness :
  exists tw bus, DigitalTwin_init 0 EventBus_new [] = Some (tw, bus) /\
    (DigitalTwin_handle_event 0 ∉ [OtherCallback 7]) /\
    (let sched := [ArrivalStep 1; PartStep 0 2 true] in
     let bsched := [Publish (ev PART_ARRIVED 1 [("part_id", "P0")]%string); RunIteration;
                    Publish (ev SENSOR_READ 2 [("part_id", "P0"); ("result", "ok")]%string)] in
     published bsched = (sim_exec sched).2 /\
     let es := (sim_exec sched).2 in
     let '(b', (w', _)) :=
       bus_exec (twin_invoke 0) (fold_left subscribe [OtherCallback 7] bus, (Some tw, [])) bsched in
     exists k s,
       option_map _state w' = Some s /\ _queue b' = drop k es /\
       error_flag s = false /\
       total_processed s = count_sorted (take k es) /\
       total_rejected s = count_sorted_nok (take k es)).
Proof.
  assert (Hn : DigitalTwin_handle_event 0 ∉ [OtherCallback 7])
    by (intros H; apply list_elem_of_singleton in H; discriminate).
  destruct (DigitalTwin_init 0 EventBus_new []) as [[tw bus]|] eqn:Hi; [|discriminate].
  assert (Hp : published [Publish (ev PART_ARRIVED 1 [("part_id", "P0")]%string); RunIteration;
                          Publish (ev SENSOR_READ 2 [("part_id", "P0"); ("result", "ok")]%string)]
               = (sim_exec [ArrivalStep 1; PartStep 0 2 true]).2) by reflexivity.
  exists tw, bus. split; [reflexivity|]. split; [exact Hn|]. split; [exact Hp|].
  exact (X13_twin_fed_by_simulator [OtherCallback 7] [ArrivalStep 1; PartStep 0 2 true] _
           tw bus Hn Hi Hp).
Defined.
